(** * app-frontend-react: option-list sagas, validation masks, queue slice

    A shallow embedding of the saga-driven option-list ("app list") fetching
    of [GeneratorDataSources.tsx], of the validation enums declared beside it
    and of the error reducers of the queue slice.

    - JavaScript objects used as dictionaries are association lists kept in
      [Object.keys] enumeration order, because the sagas iterate over them.
    - A generator-based saga is a tree of yielded effects; the middleware
      resumes it with a value ([next]) or by throwing into it ([throw]).
    - The redux store is a state together with a root reducer; [put] hands an
      action to the reducer and records it. *)

From Stdlib Require Import List String Ascii ZArith Bool Lia DecimalString.
Import ListNotations.
Open Scope string_scope.
Open Scope list_scope.

(** ** JavaScript values shared by the sagas *)

(** [IMapping]: [{ [source: string]: string }], in property order. *)
Definition IMapping := list (string * string).

(** [Object.keys(o)]. *)
Definition Object_keys {V : Type} (o : list (string * V)) : list string :=
  map fst o.

(** [xs.includes(x)] on an array of strings. *)
Definition includes (xs : list string) (x : string) : bool :=
  existsb (String.eqb x) xs.

(** [o[k]] for a dictionary: the value of the first (only) property [k]. *)
Fixpoint obj_get {V : Type} (o : list (string * V)) (k : string) : option V :=
  match o with
  | [] => None
  | (k', v) :: rest => if String.eqb k k' then Some v else obj_get rest k
  end.

(** An array index as a property name: the canonical decimal numeral of an
    integer below 2^32 - 1. *)
Definition array_index (k : string) : option N :=
  match NilEmpty.uint_of_string k with
  | Some u =>
      let n := N.of_uint u in
      if String.eqb k (NilEmpty.string_of_uint (N.to_uint n))
         && N.ltb n 4294967295
      then Some n else None
  | None => None
  end.

(** The place of a new property [k] with respect to a property [k'] of the
    object: array indices are enumerated first, in ascending order, the
    other names after them, in the order of their creation. *)
Definition enumerated_before (k k' : string) : bool :=
  match array_index k, array_index k' with
  | Some n, Some n' => N.ltb n n'
  | Some _, None => true
  | None, _ => false
  end.

(** An existing property keeps its place and takes the new value. *)
Fixpoint obj_update {V : Type} (o : list (string * V)) (k : string) (v : V)
  : list (string * V) :=
  match o with
  | [] => []
  | (k', v') :: rest =>
      if String.eqb k k' then (k', v) :: rest
      else (k', v') :: obj_update rest k v
  end.

(** A new property takes its place in the enumeration. *)
Fixpoint obj_insert {V : Type} (o : list (string * V)) (k : string) (v : V)
  : list (string * V) :=
  match o with
  | [] => [(k, v)]
  | (k', v') :: rest =>
      if enumerated_before k k' then (k, v) :: (k', v') :: rest
      else (k', v') :: obj_insert rest k v
  end.

(** [o[k] = v]. *)
Definition obj_set {V : Type} (o : list (string * V)) (k : string) (v : V)
  : list (string * V) :=
  if includes (Object_keys o) k then obj_update o k v else obj_insert o k v.

(** A thrown value. *)
Inductive JsError : Type :=
| TypeError (message : string)
| HttpError (status : Z)
| GenericError (message : string).

(** Truthiness of an optional string: [undefined] and [''] are falsy. *)
Definition truthy (s : option string) : bool :=
  match s with
  | Some v => negb (String.eqb v "")
  | None => false
  end.

(** [IAppListsMetaData]: [{ id, mapping?, secure? }]. *)
Record IAppListsMetaData : Type := mkMeta {
  meta_id : option string;
  meta_mapping : option IMapping;
  meta_secure : option bool
}.

(** The argument of [fetchSpecificAppListSaga]. *)
Record IFetchSpecificAppListSaga : Type := mkFetchArgs {
  appListId : option string;
  dataMapping : option IMapping;
  secure : option bool
}.

(** A layout component read as [ILayoutCompList]; the three properties are
    [undefined] on components that are not bound to a list. *)
Record ILayoutCompList : Type := mkComp {
  comp_appListId : option string;
  comp_mapping : option IMapping;
  comp_secure : option bool
}.

Definition ILayout := list ILayoutCompList.
Definition ILayouts := list (string * ILayout).

(** Modelled from the spec: the repeating-group state, a mapping from group
    id to row count (the type [IRepeatingGroups] is declared outside the
    sources at hand). *)
Definition IRepeatingGroups := list (string * Z).

(** The result of [getAppListLookupKeys]. *)
Record IAppListLookupKeys : Type := mkLookupKeys {
  keys : option (list IAppListsMetaData);
  keyWithIndexIndicator : option IAppListsMetaData
}.

Definition IFormData := list (string * string).
Definition Item := list (string * string).

(** The response body of the remote endpoint. *)
Record IAppList : Type := mkAppList { listItems : list Item }.

(** ** The part of [IRuntimeState] the selectors read *)

Record IUiConfig : Type := mkUiConfig {
  repeatingGroups : option IRepeatingGroups
}.

Record ILayoutState : Type := mkLayoutState {
  layouts : option ILayouts;
  uiConfig : IUiConfig
}.

Record IAppListState : Type := mkAppListState {
  appLists : list (string * IAppListsMetaData);
  appListsWithIndexIndicator : list IAppListsMetaData
}.

Record IInstance : Type := mkInstance { instance_id : string }.

Record IRuntimeState : Type := mkState {
  formLayout : option ILayoutState;
  formData : IFormData;
  appListState : IAppListState;
  instance : option IInstance
}.

Definition formLayoutSelector (state : IRuntimeState) : option ILayouts :=
  match formLayout state with
  | Some fl => layouts fl
  | None => None
  end.

Definition formDataSelector (state : IRuntimeState) : IFormData :=
  formData state.

Definition appListsSelector (state : IRuntimeState)
  : list (string * IAppListsMetaData) :=
  appLists (appListState state).

Definition appListsWithIndexIndicatorsSelector (state : IRuntimeState)
  : list IAppListsMetaData :=
  appListsWithIndexIndicator (appListState state).

Definition instanceIdSelector (state : IRuntimeState) : option string :=
  match instance state with
  | Some i => Some (instance_id i)
  | None => None
  end.

Definition repeatingGroupsSelector (state : IRuntimeState)
  : option IRepeatingGroups :=
  match formLayout state with
  | Some fl => repeatingGroups (uiConfig fl)
  | None => None
  end.

(** ** Actions of the app-list slice *)

Inductive Action : Type :=
| fetching (key : string) (metaData : IAppListsMetaData)
| fetchFulfilled (key : string) (items : list Item)
| fetchRejected (key : string) (error : JsError)
| setAppListsWithIndexIndicators (withIndexIndicators : list IAppListsMetaData).

(** ** Sagas as effect trees *)

(** How a step ends: with a value, or by throwing. *)
Inductive Completion (A : Type) : Type :=
| Normal (a : A)
| Thrown (e : JsError).
Arguments Normal {A} a.
Arguments Thrown {A} e.

(** The effects the sagas yield. [selectNotNull] resumes only once the
    selected value exists; [fork] starts a [fetchSpecificAppListSaga] task
    and does not wait for it; [call_get] is [call(get, url)]. *)
Inductive Effect : Type -> Type :=
| select {A : Type} (selector : IRuntimeState -> Completion A) : Effect A
| selectNotNull {A : Type} (selector : IRuntimeState -> option A) : Effect A
| put (action : Action) : Effect unit
| fork (args : IFetchSpecificAppListSaga) : Effect unit
| call_get (url : string) : Effect (option IAppList).

Inductive Saga (R : Type) : Type :=
| Ret (r : R)
| Throw (e : JsError)
| Yield {A : Type} (eff : Effect A) (k : Completion A -> Saga R).
Arguments Ret {R} r.
Arguments Throw {R} e.
Arguments Yield {R A} eff k.

(** Resuming a generator that has no handler around the yield. *)
Definition resume {A : Type} (c : Completion A) : Saga A :=
  match c with
  | Normal a => Ret a
  | Thrown e => Throw e
  end.

Definition yield {A : Type} (eff : Effect A) : Saga A := Yield eff resume.

Fixpoint bind {A B : Type} (m : Saga A) (f : A -> Saga B) : Saga B :=
  match m with
  | Ret a => f a
  | Throw e => Throw e
  | Yield eff k => Yield eff (fun c => bind (k c) f)
  end.

(** [try { body } catch (error) { handler }]. *)
Fixpoint try_catch {R : Type} (body : Saga R) (handler : JsError -> Saga R)
  : Saga R :=
  match body with
  | Ret r => Ret r
  | Throw e => handler e
  | Yield eff k => Yield eff (fun c => try_catch (k c) handler)
  end.

Declare Scope saga_scope.
Delimit Scope saga_scope with saga.
Notation "x <- m ;; k" := (bind m (fun x => k))
  (at level 100, m at next level, right associativity) : saga_scope.
Notation "m ;; k" := (bind m (fun _ => k))
  (at level 100, right associativity) : saga_scope.
Open Scope saga_scope.

(** A selector that cannot throw. *)
Definition total {A : Type} (selector : IRuntimeState -> A)
  : IRuntimeState -> Completion A :=
  fun state => Normal (selector state).

(** ** The middleware: running a saga against a store *)

(** What is outside the saga: the root reducer of the store, the remote
    endpoint behind [get], and the scheduler of the middleware. A forked
    task starts at once and runs until it has to wait, so the store the
    parent finds when it resumes has the actions the task dispatched so far
    (its [fetching] at least) reduced into it; [started] is that store. *)
Record Runtime : Type := mkRuntime {
  rootReducer : IRuntimeState -> Action -> IRuntimeState;
  remote_get : string -> Completion (option IAppList);
  started : IRuntimeState -> IFetchSpecificAppListSaga -> IRuntimeState
}.

Inductive Event : Type :=
| Dispatched (action : Action)
| Forked (args : IFetchSpecificAppListSaga)
| Called (url : string).

(** How a run ends: the generator returned, an error left it uncaught, or it
    stays parked on a [selectNotNull] whose value does not exist. *)
Inductive Outcome (R : Type) : Type :=
| Returned (r : R)
| Aborted (e : JsError)
| Parked.
Arguments Returned {R} r.
Arguments Aborted {R} e.
Arguments Parked {R}.

Definition perform (rt : Runtime) {A : Type} (eff : Effect A)
  (state : IRuntimeState)
  : option (Completion A) * IRuntimeState * list Event :=
  match eff in Effect T
        return option (Completion T) * IRuntimeState * list Event with
  | select selector => (Some (selector state), state, [])
  | selectNotNull selector =>
      match selector state with
      | Some a => (Some (Normal a), state, [])
      | None => (None, state, [])
      end
  | put action =>
      (Some (Normal tt), rootReducer rt state action, [Dispatched action])
  | fork args => (Some (Normal tt), started rt state args, [Forked args])
  | call_get url => (Some (remote_get rt url), state, [Called url])
  end.

Fixpoint run (rt : Runtime) {R : Type} (s : Saga R) (state : IRuntimeState)
  : Outcome R * IRuntimeState * list Event :=
  match s with
  | Ret r => (Returned r, state, [])
  | Throw e => (Aborted e, state, [])
  | Yield eff k =>
      match perform rt eff state with
      | (None, state', ev) => (Parked, state', ev)
      | (Some c, state', ev) =>
          let '(o, state'', ev') := run rt (k c) state' in
          (o, state'', ev ++ ev')
      end
  end.

Definition outcome {R : Type} (r : Outcome R * IRuntimeState * list Event)
  : Outcome R := fst (fst r).

Definition events {R : Type} (r : Outcome R * IRuntimeState * list Event)
  : list Event := snd r.

(** The actions a run dispatched, in order. *)
Fixpoint dispatched (ev : list Event) : list Action :=
  match ev with
  | [] => []
  | Dispatched a :: rest => a :: dispatched rest
  | _ :: rest => dispatched rest
  end.

(** The tasks a run forked, in order. *)
Fixpoint forked (ev : list Event) : list IFetchSpecificAppListSaga :=
  match ev with
  | [] => []
  | Forked args :: rest => args :: forked rest
  | _ :: rest => forked rest
  end.

(** [for (const x of xs) { body }], the loop variables threaded as [s]. *)
Fixpoint for_of {X S : Type} (xs : list X) (body : X -> S -> Saga S) (s : S)
  : Saga S :=
  match xs with
  | [] => Ret s
  | x :: rest => s' <- body x s ;; for_of rest body s'
  end.

(** ** Validation enums *)

Inductive BackendValidationSeverity : Type :=
| Error
| Warning
| Informational
| Success.

Definition severity_value (s : BackendValidationSeverity) : Z :=
  match s with
  | Error => 1
  | Warning => 2
  | Informational => 3
  | Success => 5
  end.

(** The reverse mapping of the numeric enum: [BackendValidationSeverity[n]]. *)
Definition severity_of_value (n : Z) : option BackendValidationSeverity :=
  match n with
  | 1 => Some Error
  | 2 => Some Warning
  | 3 => Some Informational
  | 5 => Some Success
  | _ => None
  end%Z.

Inductive ValidationMask : Type :=
| Schema
| Component
| Expression
| CustomBackend
| Required
| AllExceptRequired
| All
| Backend
| AllIncludingBackend.

(** The value of a binary literal, most significant digit first. *)
Fixpoint binary_digits (acc : Z) (digits : string) : Z :=
  match digits with
  | EmptyString => acc
  | String c rest =>
      binary_digits (2 * acc + (if Ascii.eqb c "1"%char then 1 else 0))%Z rest
  end.

(** [0b...] *)
Definition bin (digits : string) : Z := binary_digits 0%Z digits.

Definition mask_value (m : ValidationMask) : Z :=
  match m with
  | Schema => bin "0000000000000001"
  | Component => bin "0000000000000010"
  | Expression => bin "0000000000000100"
  | CustomBackend => bin "0000000000001000"
  | Required => bin "0100000000000000"
  | AllExceptRequired => bin "0011111111111111"
  | All => bin "0111111111111111"
  | Backend => bin "1000000000000000"
  | AllIncludingBackend => bin "1111111111111111"
  end.

(** The atomic categories named by the spec; the other three members are
    the combination masks. *)
Definition atomic_categories : list ValidationMask :=
  [Schema; Component; Expression; CustomBackend; Required; Backend].

Definition combination_masks : list ValidationMask :=
  [AllExceptRequired; All; AllIncludingBackend].

(** The bits that belong to some atomic category. *)
Definition atomic_bits : Z :=
  fold_right (fun m acc => Z.lor (mask_value m) acc) 0%Z atomic_categories.

(** ** The queue slice *)

(** One task of [IQueueState]: [{ isDone, error }], both [null] at first. *)
Record IQueueTask : Type := mkTask {
  isDone : option bool;
  error : option JsError
}.

Record IQueueState : Type := mkQueue {
  dataTask : IQueueTask;
  appTask : IQueueTask;
  userTask : IQueueTask;
  infoTask : IQueueTask;
  stateless : IQueueTask
}.

Definition commonState : IQueueTask := {| isDone := None; error := None |}.

Definition initialState : IQueueState :=
  {| dataTask := commonState;
     appTask := commonState;
     userTask := commonState;
     infoTask := commonState;
     stateless := commonState |}.

(** [IQueueError]: the payload of the five error actions. *)
Record IQueueError : Type := mkQueueError { payload_error : option JsError }.

(** [task.error = error]. *)
Definition set_error (task : IQueueTask) (e : option JsError) : IQueueTask :=
  {| isDone := isDone task; error := e |}.

(** [task.isDone = b]. *)
Definition set_isDone (task : IQueueTask) (b : bool) : IQueueTask :=
  {| isDone := Some b; error := error task |}.

Inductive QueueAction : Type :=
| appTaskQueueError (payload : IQueueError)
| userTaskQueueError (payload : IQueueError)
| dataTaskQueueError (payload : IQueueError)
| infoTaskQueueError (payload : IQueueError)
| statelessQueueError (payload : IQueueError)
| startInitialAppTaskQueue
| startInitialAppTaskQueueFulfilled
| startInitialDataTaskQueue
| startInitialDataTaskQueueFulfilled
| startInitialInfoTaskQueue
| startInitialInfoTaskQueueFulfilled
| startInitialStatelessQueue
| startInitialStatelessQueueFulfilled.

(** The reducers of [queueSlice]; each one assigns one property of one task
    of the draft state. *)
Definition queueSlice_reducer (state : IQueueState) (action : QueueAction)
  : IQueueState :=
  match action with
  | appTaskQueueError p =>
      {| dataTask := dataTask state;
         appTask := set_error (appTask state) (payload_error p);
         userTask := userTask state;
         infoTask := infoTask state;
         stateless := stateless state |}
  | userTaskQueueError p =>
      {| dataTask := dataTask state;
         appTask := appTask state;
         userTask := set_error (userTask state) (payload_error p);
         infoTask := infoTask state;
         stateless := stateless state |}
  | dataTaskQueueError p =>
      {| dataTask := set_error (dataTask state) (payload_error p);
         appTask := appTask state;
         userTask := userTask state;
         infoTask := infoTask state;
         stateless := stateless state |}
  | infoTaskQueueError p =>
      {| dataTask := dataTask state;
         appTask := appTask state;
         userTask := userTask state;
         infoTask := set_error (infoTask state) (payload_error p);
         stateless := stateless state |}
  | statelessQueueError p =>
      {| dataTask := dataTask state;
         appTask := appTask state;
         userTask := userTask state;
         infoTask := infoTask state;
         stateless := set_error (stateless state) (payload_error p) |}
  | startInitialAppTaskQueue =>
      {| dataTask := dataTask state;
         appTask := set_isDone (appTask state) false;
         userTask := userTask state;
         infoTask := infoTask state;
         stateless := stateless state |}
  | startInitialAppTaskQueueFulfilled =>
      {| dataTask := dataTask state;
         appTask := set_isDone (appTask state) true;
         userTask := userTask state;
         infoTask := infoTask state;
         stateless := stateless state |}
  | startInitialDataTaskQueue =>
      {| dataTask := set_isDone (dataTask state) false;
         appTask := appTask state;
         userTask := userTask state;
         infoTask := infoTask state;
         stateless := stateless state |}
  | startInitialDataTaskQueueFulfilled =>
      {| dataTask := set_isDone (dataTask state) true;
         appTask := appTask state;
         userTask := userTask state;
         infoTask := infoTask state;
         stateless := stateless state |}
  | startInitialInfoTaskQueue =>
      {| dataTask := dataTask state;
         appTask := appTask state;
         userTask := userTask state;
         infoTask := set_isDone (infoTask state) false;
         stateless := stateless state |}
  | startInitialInfoTaskQueueFulfilled =>
      {| dataTask := dataTask state;
         appTask := appTask state;
         userTask := userTask state;
         infoTask := set_isDone (infoTask state) true;
         stateless := stateless state |}
  | startInitialStatelessQueue =>
      {| dataTask := dataTask state;
         appTask := appTask state;
         userTask := userTask state;
         infoTask := infoTask state;
         stateless := set_isDone (stateless state) false |}
  | startInitialStatelessQueueFulfilled =>
      {| dataTask := dataTask state;
         appTask := appTask state;
         userTask := userTask state;
         infoTask := infoTask state;
         stateless := set_isDone (stateless state) true |}
  end.

(** The five tasks, to speak of "the task named by the action". *)
Inductive TaskName : Type :=
| DataTask
| AppTask
| UserTask
| InfoTask
| Stateless.

Definition task_of (name : TaskName) (state : IQueueState) : IQueueTask :=
  match name with
  | DataTask => dataTask state
  | AppTask => appTask state
  | UserTask => userTask state
  | InfoTask => infoTask state
  | Stateless => stateless state
  end.

(** The error action of each task. *)
Definition error_action (name : TaskName) (payload : IQueueError)
  : QueueAction :=
  match name with
  | DataTask => dataTaskQueueError payload
  | AppTask => appTaskQueueError payload
  | UserTask => userTaskQueueError payload
  | InfoTask => infoTaskQueueError payload
  | Stateless => statelessQueueError payload
  end.

(** ** A concrete key codec, resolver and URL builder

    The sagas import these helpers from [src/utils/databindings],
    [src/utils/applist], [src/utils/appUrlHelper] and
    [src/selectors/appLanguageStateSelector]; the sagas below take them as
    parameters. This module gives one instance of them, used to run the
    sagas on concrete stores. *)
Module KeyCodec.

(** The segments of a dotted path. *)
Fixpoint split_path (cur : string) (path : string) : list string :=
  match path with
  | EmptyString => [cur]
  | String c rest =>
      if Ascii.eqb c "."%char then cur :: split_path "" rest
      else split_path (String.append cur (String c "")) rest
  end.

Definition join_path (segments : list string) : string :=
  String.concat "." segments.

(** A row index is a segment made of decimal digits. *)
Definition index_of_segment (segment : string) : option Z :=
  if String.eqb segment "" then None
  else option_map (fun u => Z.of_N (N.of_uint u))
                  (NilEmpty.uint_of_string segment).

Definition is_index (segment : string) : bool :=
  match index_of_segment segment with
  | Some _ => true
  | None => false
  end.

(** An index placeholder is a segment in braces, as [{idx}] or [{0}]. *)
Definition is_indicator (segment : string) : bool :=
  match segment with
  | String c _ => Ascii.eqb c "{"%char
  | EmptyString => false
  end.

Definition segment_of_index (i : Z) : string :=
  NilEmpty.string_of_uint (N.to_uint (Z.to_N i)).

(** Modelled from the spec: [withoutIndex(path)] strips all row indices
    (the function [getKeyWithoutIndex] of [src/utils/databindings] is
    missing). *)
Definition getKeyWithoutIndex (path : string) : string :=
  join_path (filter (fun s => negb (is_index s)) (split_path "" path)).

(** Modelled from the spec: [withoutIndexIndicators(path)] strips
    placeholder markers only (the function [getKeyWithoutIndexIndicators]
    is missing). *)
Definition getKeyWithoutIndexIndicators (path : string) : string :=
  join_path (filter (fun s => negb (is_indicator s)) (split_path "" path)).

(** Modelled from the spec: [indexOf(path)] extracts the indices in
    left-to-right order (the function [getKeyIndex] is missing). *)
Definition getKeyIndex (path : string) : list Z :=
  flat_map (fun s => match index_of_segment s with
                     | Some i => [i]
                     | None => []
                     end)
           (split_path "" path).

(** The placeholders take the indices in encounter order; a placeholder
    without index, or an index without placeholder, is a failure. *)
Fixpoint replace_segments (segments : list string) (indexes : list Z)
  : option (list string) :=
  match segments with
  | [] =>
      match indexes with
      | [] => Some []
      | _ :: _ => None
      end
  | s :: rest =>
      if is_indicator s then
        match indexes with
        | i :: indexes' =>
            option_map (cons (segment_of_index i))
                       (replace_segments rest indexes')
        | [] => None
        end
      else option_map (cons s) (replace_segments rest indexes)
  end.

Definition MalformedPathError : JsError := GenericError "MalformedPathError".

(** Modelled from the spec: [replaceIndicatorsWithIndexes(path, indices)]
    substitutes placeholders with the given indices in encounter order and
    fails with [MalformedPathError] if the placeholder count differs from
    the supplied index count (the function
    [replaceIndexIndicatorsWithIndexes] is missing). *)
Definition replaceIndexIndicatorsWithIndexes (path : string)
  (indexes : list Z) : Completion string :=
  match replace_segments (split_path "" path) indexes with
  | Some segments => Normal (join_path segments)
  | None => Thrown MalformedPathError
  end.

Definition has_indicator (path : string) : bool :=
  existsb is_indicator (split_path "" path).

Definition string_of_id (id : option string) : string :=
  match id with
  | Some s => s
  | None => "undefined"
  end.

(** Modelled from the spec: a Lookup Key is a string that is a function of
    the list id and the field mapping (the function [getAppListLookupKey]
    of [src/utils/applist] is missing). *)
Definition getAppListLookupKey (id : option string)
  (mapping : option IMapping) : string :=
  match mapping with
  | None => string_of_id id
  | Some m =>
      String.append (string_of_id id)
        (String.append ":"
           (String.concat ","
              (map (fun kv => String.append (fst kv)
                                (String.append "=" (snd kv))) m)))
  end.

Definition count_indicators (path : string) : nat :=
  List.length (filter is_indicator (split_path "" path)).

(** The mapping of one row: every placeholder takes the row index. *)
Definition mapping_of_row (m : IMapping) (row : nat) : IMapping :=
  map (fun kv =>
         (match replaceIndexIndicatorsWithIndexes (fst kv)
                  (repeat (Z.of_nat row) (count_indicators (fst kv))) with
          | Normal path => path
          | Thrown _ => fst kv
          end,
          snd kv)) m.

(** The rows of the group a templated field lies in: the group is named by
    the first segment of the field. *)
Definition rows_of (m : IMapping) (groups : IRepeatingGroups) : nat :=
  match filter has_indicator (Object_keys m) with
  | [] => 0
  | field :: _ =>
      match obj_get groups (hd "" (split_path "" field)) with
      | Some n => Z.to_nat n
      | None => 0
      end
  end.

(** Modelled from the spec: the lookup resolver; one concrete key per row
    of the repeating group for a mapping with placeholders, together with
    the templated key, and the component's own key otherwise (the function
    [getAppListLookupKeys] of [src/utils/applist] is missing). Nested
    groups are not modelled. *)
Definition getAppListLookupKeys (id : option string)
  (mapping : option IMapping) (sec : option bool)
  (groups : IRepeatingGroups) : IAppListLookupKeys :=
  match mapping with
  | None =>
      {| keys := Some [mkMeta id None sec]; keyWithIndexIndicator := None |}
  | Some m =>
      if existsb has_indicator (Object_keys m) then
        {| keys := Some (map (fun row => mkMeta id (Some (mapping_of_row m row)) sec)
                             (seq 0 (rows_of m groups)));
           keyWithIndexIndicator := Some (mkMeta id (Some m) sec) |}
      else
        {| keys := Some [mkMeta id (Some m) sec];
           keyWithIndexIndicator := None |}
  end.

(** Modelled from the spec: the URL of the remote option-list endpoint,
    parameterised by list id, form data, language, field mapping, security
    flag and instance id (the function [getAppListsUrl] of
    [src/utils/appUrlHelper] is missing). *)
Definition getAppListsUrl (id : option string) (data : IFormData)
  (language : string) (mapping : option IMapping) (sec : option bool)
  (instanceId : option string) : Completion string :=
  let base :=
    match sec, instanceId with
    | Some true, Some i => String.append "instances/" (String.append i "/")
    | _, _ => ""
    end in
  let query :=
    match mapping with
    | None => ""
    | Some m =>
        String.concat ""
          (map (fun kv =>
                  String.append "&"
                    (String.append (snd kv)
                       (String.append "="
                          (match obj_get data (fst kv) with
                           | Some v => v
                           | None => ""
                           end)))) m)
    end in
  Normal (String.append base
            (String.append "api/lists/"
               (String.append (string_of_id id)
                  (String.append "?language="
                     (String.append language query))))).

(** A language selector that reads a fixed application language. *)
Definition appLanguageStateSelector (_ : IRuntimeState) : Completion string :=
  Normal "nb".

End KeyCodec.


(** ** A concrete form

    The scenario of the spec: the list [list1] bound to a field of the
    repeating group [persons], which has three rows; a second, secured list
    without mapping; a component that is not bound to a list. *)
Module Demo.

Definition list1 : ILayoutCompList :=
  mkComp (Some "list1") (Some [("persons.{0}.name", "name")]) None.

Definition list2 : ILayoutCompList := mkComp (Some "list2") None (Some true).

Definition input : ILayoutCompList := mkComp None None None.

Definition pages : ILayouts :=
  [("page1", [list1; input; list2]); ("page2", [list2; list1])].

Definition groups : IRepeatingGroups := [("persons", 3%Z)].

Definition row (i : string) : IAppListsMetaData :=
  mkMeta (Some "list1")
    (Some [(String.append "persons." (String.append i ".name"), "name")]) None.

(** The entries on file once the first pass has run. *)
Definition stored : list (string * IAppListsMetaData) :=
  [("list1:persons.0.name=name", row "0");
   ("list1:persons.1.name=name", row "1");
   ("list1:persons.2.name=name", row "2");
   ("list2", mkMeta (Some "list2") None (Some true))].

Definition state : IRuntimeState :=
  {| formLayout :=
       Some {| layouts := Some pages;
               uiConfig := {| repeatingGroups := Some groups |} |};
     formData := [("persons.1.name", "Kari")];
     appListState :=
       {| appLists := stored;
          appListsWithIndexIndicator :=
            [mkMeta (Some "list1") (Some [("persons.{0}.name", "name")]) None] |};
     instance := Some {| instance_id := "inst-1" |} |}.

(** A root reducer that files the meta data of a started fetch under its
    key and replaces the template index. *)
Definition reducer (s : IRuntimeState) (a : Action) : IRuntimeState :=
  match a with
  | fetching key metaData =>
      {| formLayout := formLayout s;
         formData := formData s;
         appListState :=
           {| appLists := obj_set (appLists (appListState s)) key metaData;
              appListsWithIndexIndicator :=
                appListsWithIndexIndicator (appListState s) |};
         instance := instance s |}
  | setAppListsWithIndexIndicators templates =>
      {| formLayout := formLayout s;
         formData := formData s;
         appListState :=
           {| appLists := appLists (appListState s);
              appListsWithIndexIndicator := templates |};
         instance := instance s |}
  | _ => s
  end.

(** An endpoint that fails for [list2] and answers for every other list. *)
Definition remote (url : string) : Completion (option IAppList) :=
  if String.prefix "instances/inst-1/api/lists/list2" url
  then Thrown (HttpError 503)
  else Normal (Some {| listItems := [[("value", "1"); ("label", "Kari")]] |}).

(** The store once a forked fetch has started: its [fetching] action is
    reduced. *)
Definition start (s : IRuntimeState) (args : IFetchSpecificAppListSaga)
  : IRuntimeState :=
  reducer s
    (fetching (KeyCodec.getAppListLookupKey (appListId args) (dataMapping args))
              (mkMeta (appListId args) (dataMapping args) (secure args))).

Definition runtime : Runtime :=
  {| rootReducer := reducer; remote_get := remote; started := start |}.

Definition list2_args : IFetchSpecificAppListSaga :=
  mkFetchArgs (Some "list2") None (Some true).

End Demo.

(** ** More of the validation types *)

Definition all_masks : list ValidationMask :=
  [Schema; Component; Expression; CustomBackend; Required;
   AllExceptRequired; All; Backend; AllIncludingBackend].

(** The member names: [keyof typeof ValidationMask]. *)
Definition mask_name (m : ValidationMask) : string :=
  match m with
  | Schema => "Schema"
  | Component => "Component"
  | Expression => "Expression"
  | CustomBackend => "CustomBackend"
  | Required => "Required"
  | AllExceptRequired => "AllExceptRequired"
  | All => "All"
  | Backend => "Backend"
  | AllIncludingBackend => "AllIncludingBackend"
  end.

Definition ValidationMaskKeys : list string := map mask_name all_masks.

(** [Extract<T, U>] and [Exclude<T, U>] on unions of string literals: the
    members of [T] that are, or are not, members of [U]. *)
Definition Extract (T U : list string) : list string :=
  filter (fun k => includes U k) T.

Definition Exclude (T U : list string) : list string :=
  filter (fun k => negb (includes U k)) T.

Definition ValidationMaskCollectionKeys : list string :=
  Extract ValidationMaskKeys ["All"; "AllExceptRequired"; "All_Including_Backend"].

Definition ValidationCategoryKey : list string :=
  Exclude ValidationMaskKeys ValidationMaskCollectionKeys.

(** [ValidationCategory]: the value of a member named by
    [ValidationCategoryKey], or 0. *)
Definition ValidationCategory (v : Z) : bool :=
  Z.eqb v 0
  || existsb (fun m => includes ValidationCategoryKey (mask_name m)
                       && Z.eqb (mask_value m) v) all_masks.

(** The bits of [a] are bits of [b]. *)
Definition mask_within (a b : ValidationMask) : Prop :=
  Z.land (mask_value a) (mask_value b) = mask_value a.

(** ** More of the queue slice *)

Inductive TaskField : Type :=
| IsDoneField
| ErrorField.

Inductive FieldValue : Type :=
| DoneValue (v : option bool)
| ErrorValue (v : option JsError).

(** Reading one property of one task. *)
Definition read (target : TaskName * TaskField) (state : IQueueState)
  : FieldValue :=
  match snd target with
  | IsDoneField => DoneValue (isDone (task_of (fst target) state))
  | ErrorField => ErrorValue (error (task_of (fst target) state))
  end.

(** The property an action assigns, as its reducer names it. *)
Definition written (action : QueueAction) : TaskName * TaskField :=
  match action with
  | appTaskQueueError _ => (AppTask, ErrorField)
  | userTaskQueueError _ => (UserTask, ErrorField)
  | dataTaskQueueError _ => (DataTask, ErrorField)
  | infoTaskQueueError _ => (InfoTask, ErrorField)
  | statelessQueueError _ => (Stateless, ErrorField)
  | startInitialAppTaskQueue | startInitialAppTaskQueueFulfilled =>
      (AppTask, IsDoneField)
  | startInitialDataTaskQueue | startInitialDataTaskQueueFulfilled =>
      (DataTask, IsDoneField)
  | startInitialInfoTaskQueue | startInitialInfoTaskQueueFulfilled =>
      (InfoTask, IsDoneField)
  | startInitialStatelessQueue | startInitialStatelessQueueFulfilled =>
      (Stateless, IsDoneField)
  end.

(** The value an action assigns. *)
Definition assigned (action : QueueAction) : FieldValue :=
  match action with
  | appTaskQueueError p | userTaskQueueError p | dataTaskQueueError p
  | infoTaskQueueError p | statelessQueueError p =>
      ErrorValue (payload_error p)
  | startInitialAppTaskQueue | startInitialDataTaskQueue
  | startInitialInfoTaskQueue | startInitialStatelessQueue =>
      DoneValue (Some false)
  | startInitialAppTaskQueueFulfilled | startInitialDataTaskQueueFulfilled
  | startInitialInfoTaskQueueFulfilled | startInitialStatelessQueueFulfilled =>
      DoneValue (Some true)
  end.

(** The queue state after a sequence of actions. *)
Definition queue_after (state : IQueueState) (actions : list QueueAction)
  : IQueueState :=
  fold_left queueSlice_reducer actions state.

(** The actions the sagas of the slice put; those of other slices are
    opaque to the queue. *)
Inductive AppAction : Type :=
| QueueActions (action : QueueAction)
| TextResourcesActions_fetch
| LanguageActions_fetchLanguage
| FormDataActions_fetchInitial
| DataModelActions_fetchJsonSchema
| FormLayoutActions_fetch
| FormLayoutActions_fetchSettings
| PdfActions_initial
| AttachmentActions_mapAttachments
| IsLoadingActions_startStatelessIsLoading.

(** The puts of the saga the slice attaches to an action ([takeEvery] or
    [takeLatest]), in order; an action without saga puts nothing. The saga
    of [startInitialInfoTaskQueue] is [watchStartInitialInfoTaskQueueSaga],
    which is not in the sources at hand. *)
Definition queue_saga (action : QueueAction) : option (list AppAction) :=
  match action with
  | startInitialAppTaskQueue =>
      Some [TextResourcesActions_fetch;
            LanguageActions_fetchLanguage;
            QueueActions startInitialAppTaskQueueFulfilled]
  | startInitialDataTaskQueue =>
      Some [FormDataActions_fetchInitial;
            DataModelActions_fetchJsonSchema;
            FormLayoutActions_fetch;
            FormLayoutActions_fetchSettings;
            PdfActions_initial;
            AttachmentActions_mapAttachments;
            QueueActions startInitialDataTaskQueueFulfilled]
  | startInitialStatelessQueue =>
      Some [IsLoadingActions_startStatelessIsLoading;
            FormDataActions_fetchInitial;
            DataModelActions_fetchJsonSchema;
            FormLayoutActions_fetch;
            FormLayoutActions_fetchSettings;
            QueueActions startInitialStatelessQueueFulfilled]
  | startInitialInfoTaskQueue => None
  | _ => Some []
  end.

(** The queue state under any action of the application: the slice has
    reducers for its own actions only. *)
Definition queue_reduce (state : IQueueState) (action : AppAction)
  : IQueueState :=
  match action with
  | QueueActions a => queueSlice_reducer state a
  | _ => state
  end.

(** The queue actions among the puts of a saga. *)
Definition queue_puts (puts : list AppAction) : list QueueAction :=
  flat_map (fun a => match a with
                     | QueueActions q => [q]
                     | _ => []
                     end) puts.

(** Dispatching a queue action: its reducer runs, then its saga puts its
    actions one after the other. *)
Definition dispatch_queue (state : IQueueState) (action : QueueAction)
  : option IQueueState :=
  match queue_saga action with
  | Some puts => Some (fold_left queue_reduce puts (queueSlice_reducer state action))
  | None => None
  end.

(** ** A later store

    The form of [Demo] with nothing on file, other form data, a reducer that
    ignores every action, an endpoint that is down and forked tasks that
    leave the store alone. *)
Module Later.

Definition state : IRuntimeState :=
  {| formLayout := formLayout Demo.state;
     formData := [("persons.0.name", "Ola")];
     appListState := {| appLists := []; appListsWithIndexIndicator := [] |};
     instance := None |}.

Definition runtime : Runtime :=
  {| rootReducer := fun s _ => s;
     remote_get := fun _ => Thrown (HttpError 502);
     started := fun s _ => s |}.

End Later.

(** ** Templates at the edges

    A store with nothing on file but one template: in [colliding] its two
    keys are replaced to the same key for every row; in [mismatched] its key
    has two placeholders, and it matches a field with a single index. *)
Module Edge.





End Edge.

(** ** The sagas *)

Section Sagas.

(** A lemma depends on the helpers its statement names, and on no other. *)
Set Default Proof Using "Type".

(** The imported helpers, with the types at which the sagas use them. *)
Variable getAppListLookupKey : option string -> option IMapping -> string.
Variable getAppListLookupKeys :
  option string -> option IMapping -> option bool -> IRepeatingGroups ->
  IAppListLookupKeys.
Variable getAppListsUrl :
  option string -> IFormData -> string -> option IMapping -> option bool ->
  option string -> Completion string.
Variable appLanguageStateSelector : IRuntimeState -> Completion string.
Variable getKeyIndex : string -> list Z.
Variable getKeyWithoutIndex : string -> string.
Variable getKeyWithoutIndexIndicators : string -> string.
Variable replaceIndexIndicatorsWithIndexes :
  string -> list Z -> Completion string.

(** The two arrays [fetchAppListsSaga] fills while it walks the layouts. *)
Record PassState : Type := mkPass {
  fetchedAppLists : list string;
  appListsWithIndexIndicators : list IAppListsMetaData
}.

(** The body of [for (const appListsObject of keys)]. *)
Definition fetch_key (outerAppListId : option string)
  (appListsObject : IAppListsMetaData) (fetched : list string)
  : Saga (list string) :=
  let lookupKey :=
    getAppListLookupKey (meta_id appListsObject) (meta_mapping appListsObject) in
  if truthy outerAppListId && negb (includes fetched lookupKey) then
    yield (fork {| appListId := outerAppListId;
                   dataMapping := meta_mapping appListsObject;
                   secure := meta_secure appListsObject |}) ;;
    Ret (fetched ++ [lookupKey])
  else Ret fetched.

(** The body of [for (const element of layouts[layoutId])]. *)
Definition visit_element (groups : IRepeatingGroups)
  (element : ILayoutCompList) (s : PassState) : Saga PassState :=
  let resolved :=
    getAppListLookupKeys (comp_appListId element) (comp_mapping element)
                         (comp_secure element) groups in
  let withIndicators :=
    match keyWithIndexIndicator resolved with
    | Some k => appListsWithIndexIndicators s ++ [k]
    | None => appListsWithIndexIndicators s
    end in
  match keys resolved with
  | None => Ret (mkPass (fetchedAppLists s) withIndicators)
  | Some ks =>
      if Nat.eqb (List.length ks) 0 then
        Ret (mkPass (fetchedAppLists s) withIndicators)
      else
        fetched <- for_of ks (fetch_key (comp_appListId element))
                          (fetchedAppLists s) ;;
        Ret (mkPass fetched withIndicators)
  end.

Definition fetchAppListsSaga : Saga unit :=
  layouts <- yield (selectNotNull formLayoutSelector) ;;
  groups <- yield (selectNotNull repeatingGroupsSelector) ;;
  s <- for_of layouts
         (fun page s => for_of (snd page) (visit_element groups) s)
         (mkPass [] []) ;;
  yield (put (setAppListsWithIndexIndicators (appListsWithIndexIndicators s))).

(** [appLists.listItems]; reading a property of [undefined] throws. *)
Definition get_listItems (response : option IAppList) : Saga (list Item) :=
  match response with
  | Some body => Ret (listItems body)
  | None => Throw (TypeError "Cannot read properties of undefined")
  end.

(** The [try] block of [fetchSpecificAppListSaga]. *)
Definition fetch_attempt (args : IFetchSpecificAppListSaga) (key : string)
  (instanceId : option string) : Saga unit :=
  let metaData :=
    {| meta_id := appListId args;
       meta_mapping := dataMapping args;
       meta_secure := secure args |} in
  yield (put (fetching key metaData)) ;;
  data <- yield (select (total formDataSelector)) ;;
  language <- yield (select appLanguageStateSelector) ;;
  url <- resume (getAppListsUrl (appListId args) data language
                                (dataMapping args) (secure args) instanceId) ;;
  response <- yield (call_get url) ;;
  AppListsWithoutMetaData <- get_listItems response ;;
  yield (put (fetchFulfilled key AppListsWithoutMetaData)).

Definition fetchSpecificAppListSaga (args : IFetchSpecificAppListSaga)
  : Saga unit :=
  let key := getAppListLookupKey (appListId args) (dataMapping args) in
  instanceId <- yield (select (total instanceIdSelector)) ;;
  try_catch (fetch_attempt args key instanceId)
            (fun error => yield (put (fetchRejected key error))).

(** [dataMapping && Object.keys(dataMapping).includes(field)]. *)
Definition mapping_includes (mapping : option IMapping) (field : string)
  : bool :=
  match mapping with
  | Some m => includes (Object_keys m) field
  | None => false
  end.

(** The condition of the second loop of the reactor. *)
Definition template_matches (mapping : option IMapping) (field : string)
  : bool :=
  match mapping with
  | Some m =>
      includes (map getKeyWithoutIndexIndicators (Object_keys m))
               (getKeyWithoutIndex field)
  | None => false
  end.

(** [for (const key of Object.keys(mapping))
      newDataMapping[replaceIndexIndicatorsWithIndexes(key, keys)] = mapping[key]]
    on the object built so far; an error of the helper ends the loop. *)
Fixpoint assign_replaced (built : IMapping) (mapping : IMapping)
  (indexes : list Z) : Completion IMapping :=
  match mapping with
  | [] => Normal built
  | (key, v) :: rest =>
      match replaceIndexIndicatorsWithIndexes key indexes with
      | Normal replaced => assign_replaced (obj_set built replaced v) rest indexes
      | Thrown e => Thrown e
      end
  end.

(** [newDataMapping], from the empty object. *)
Definition newDataMapping (mapping : IMapping) (indexes : list Z)
  : Completion IMapping :=
  assign_replaced [] mapping indexes.

(** The body of [for (const appListKey of Object.keys(appLists))], on the
    entry [appLists[appListKey]]. *)
Definition refetch_exact (field : string)
  (entry : string * IAppListsMetaData) (foundInExistingAppLists : bool)
  : Saga bool :=
  let stored := snd entry in
  if mapping_includes (meta_mapping stored) field then
    yield (fork {| appListId := meta_id stored;
                   dataMapping := meta_mapping stored;
                   secure := meta_secure stored |}) ;;
    Ret true
  else Ret foundInExistingAppLists.

(** The body of [for (const appLists of appListsWithIndexIndicators)]. *)
Definition refetch_template (field : string) (template : IAppListsMetaData)
  (_ : unit) : Saga unit :=
  match meta_mapping template with
  | Some mapping =>
      if template_matches (Some mapping) field then
        let indexes := getKeyIndex field in
        built <- resume (newDataMapping mapping indexes) ;;
        yield (fork {| appListId := meta_id template;
                       dataMapping := Some built;
                       secure := meta_secure template |})
      else Ret tt
  | None => Ret tt
  end.

Definition checkIfAppListsShouldRefetchSaga (field : string) : Saga unit :=
  stored <- yield (select (total appListsSelector)) ;;
  templates <- yield (select (total appListsWithIndexIndicatorsSelector)) ;;
  foundInExistingAppLists <- for_of stored (refetch_exact field) false ;;
  if (foundInExistingAppLists : bool) then Ret tt
  else for_of templates (refetch_template field) tt.

(** *** Notions used in the statements *)

(** One resolved key met during the walk, with the [appListId] of the
    component it was resolved for. *)
Record Occurrence : Type := mkOcc {
  occ_appListId : option string;
  occ_key : IAppListsMetaData
}.

Definition element_occurrences (groups : IRepeatingGroups)
  (element : ILayoutCompList) : list Occurrence :=
  match keys (getAppListLookupKeys (comp_appListId element)
                (comp_mapping element) (comp_secure element) groups) with
  | Some ks => map (mkOcc (comp_appListId element)) ks
  | None => []
  end.

(** All occurrences in traversal order: pages, components, resolved keys. *)
Definition occurrences (pages : ILayouts) (groups : IRepeatingGroups)
  : list Occurrence :=
  flat_map (fun page => flat_map (element_occurrences groups) (snd page)) pages.

Definition occ_lookupKey (o : Occurrence) : string :=
  getAppListLookupKey (meta_id (occ_key o)) (meta_mapping (occ_key o)).

Definition occ_args (o : Occurrence) : IFetchSpecificAppListSaga :=
  {| appListId := occ_appListId o;
     dataMapping := meta_mapping (occ_key o);
     secure := meta_secure (occ_key o) |}.

(** The occurrence belongs to a component that has an [appListId]. *)
Definition has_appListId (o : Occurrence) : bool := truthy (occ_appListId o).

(** The lookup key [key] occurs in [os] for a component with an
    [appListId]. *)
Definition occurs_in (os : list Occurrence) (key : string) : bool :=
  existsb (fun p => has_appListId p && String.eqb key (occ_lookupKey p)) os.

(** The occurrences of [rest] that are the first of their lookup key, given
    the occurrences [earlier] met before them. *)
Fixpoint first_occurrences (earlier rest : list Occurrence)
  : list Occurrence :=
  match rest with
  | [] => []
  | o :: rest' =>
      if has_appListId o && negb (occurs_in earlier (occ_lookupKey o))
      then o :: first_occurrences (earlier ++ [o]) rest'
      else first_occurrences (earlier ++ [o]) rest'
  end.

(** Every [keyWithIndexIndicator] the resolver returns during the walk. *)
Definition element_template (groups : IRepeatingGroups)
  (element : ILayoutCompList) : list IAppListsMetaData :=
  match keyWithIndexIndicator
          (getAppListLookupKeys (comp_appListId element)
             (comp_mapping element) (comp_secure element) groups) with
  | Some k => [k]
  | None => []
  end.

Definition templates_seen (pages : ILayouts) (groups : IRepeatingGroups)
  : list IAppListsMetaData :=
  flat_map (fun page => flat_map (element_template groups) (snd page)) pages.

(** The stored entries whose mapping has the changed field among its keys. *)
Definition exact_matches (field : string)
  (stored : list (string * IAppListsMetaData)) : list IAppListsMetaData :=
  filter (fun e => mapping_includes (meta_mapping e) field) (map snd stored).

Definition refetch_args (e : IAppListsMetaData) : IFetchSpecificAppListSaga :=
  {| appListId := meta_id e;
     dataMapping := meta_mapping e;
     secure := meta_secure e |}.

(** The templates one of whose keys, stripped of its index indicators, is
    the changed field stripped of its indices. *)
Definition template_hits (field : string)
  (templates : list IAppListsMetaData) : list IAppListsMetaData :=
  filter (fun t => template_matches (meta_mapping t) field) templates.



(** The fetch forked for a template, or the error that keeps the saga from
    forking it. *)
Definition concretise_args (field : string) (t : IAppListsMetaData)
  : Completion IFetchSpecificAppListSaga :=
  match meta_mapping t with
  | Some m =>
      match newDataMapping m (getKeyIndex field) with
      | Normal built =>
          Normal {| appListId := meta_id t;
                    dataMapping := Some built;
                    secure := meta_secure t |}
      | Thrown e => Thrown e
      end
  | None =>
      Normal {| appListId := meta_id t;
                dataMapping := None;
                secure := meta_secure t |}
  end.

(** The fetches forked for the templates [hits], in order, up to the first
    one the helper fails on, and how the loop over them ends. *)
Fixpoint template_forks (field : string) (hits : list IAppListsMetaData)
  : list IFetchSpecificAppListSaga * Outcome unit :=
  match hits with
  | [] => ([], Returned tt)
  | t :: rest =>
      match concretise_args field t with
      | Normal args =>
          (args :: fst (template_forks field rest),
           snd (template_forks field rest))
      | Thrown e => ([], Aborted e)
      end
  end.

(** The store after the tasks [tasks] have been started one after the
    other. *)
Definition after_forks (rt : Runtime)
  (tasks : list IFetchSpecificAppListSaga) (state : IRuntimeState)
  : IRuntimeState :=
  fold_left (started rt) tasks state.

(** The steps of the [try] block that can throw, on the store [state] left
    by the [fetching] dispatch: the language selector, the URL helper, the
    remote call, and reading [listItems] of a missing body. *)
Inductive attempt_throws (rt : Runtime) (state : IRuntimeState)
  (args : IFetchSpecificAppListSaga) (instanceId : option string)
  : JsError -> Prop :=
| language_throws e :
    appLanguageStateSelector state = Thrown e ->
    attempt_throws rt state args instanceId e
| url_throws language e :
    appLanguageStateSelector state = Normal language ->
    getAppListsUrl (appListId args) (formDataSelector state) language
                   (dataMapping args) (secure args) instanceId = Thrown e ->
    attempt_throws rt state args instanceId e
| get_throws language url e :
    appLanguageStateSelector state = Normal language ->
    getAppListsUrl (appListId args) (formDataSelector state) language
                   (dataMapping args) (secure args) instanceId = Normal url ->
    remote_get rt url = Thrown e ->
    attempt_throws rt state args instanceId e
| listItems_throws language url :
    appLanguageStateSelector state = Normal language ->
    getAppListsUrl (appListId args) (formDataSelector state) language
                   (dataMapping args) (secure args) instanceId = Normal url ->
    remote_get rt url = Normal None ->
    attempt_throws rt state args instanceId
      (TypeError "Cannot read properties of undefined").

(** The forked tasks of one pass run one after the other on the store; a
    task that ends on an uncaught error aborts the pass and the tasks not
    yet run (an attached fork propagates its error to the parent). *)
Fixpoint run_forked (rt : Runtime) (tasks : list IFetchSpecificAppListSaga)
  (state : IRuntimeState) : Outcome unit * IRuntimeState * list Event :=
  match tasks with
  | [] => (Returned tt, state, [])
  | task :: rest =>
      match run rt (fetchSpecificAppListSaga task) state with
      | (Returned _, state', ev) =>
          let '(o, state'', ev') := run_forked rt rest state' in
          (o, state'', ev ++ ev')
      | (Aborted e, state', ev) => (Aborted e, state', ev)
      | (Parked, state', ev) => (Parked, state', ev)
      end
  end.

(** The array [fetchedAppLists] holds the lookup keys of the occurrences
    met so far that belong to a component with an [appListId]. *)
Definition tracks (fetched : list string) (earlier : list Occurrence) : Prop :=
  forall key, includes fetched key = occurs_in earlier key.

(** The lookup key and the meta data a fetch computes at entry. *)
Definition key_of (args : IFetchSpecificAppListSaga) : string :=
  getAppListLookupKey (appListId args) (dataMapping args).

Definition metaData_of (args : IFetchSpecificAppListSaga)
  : IAppListsMetaData :=
  {| meta_id := appListId args;
     meta_mapping := dataMapping args;
     meta_secure := secure args |}.

(** How the [try] block ends on the store left by the [fetching] dispatch:
    with the items of the response, or with the error of its first failing
    step. *)
Definition attempt_result (rt : Runtime) (state : IRuntimeState)
  (args : IFetchSpecificAppListSaga) (instanceId : option string)
  : Completion (list Item) * list Event :=
  match appLanguageStateSelector state with
  | Thrown e => (Thrown e, [])
  | Normal language =>
      match getAppListsUrl (appListId args) (formDataSelector state) language
                           (dataMapping args) (secure args) instanceId with
      | Thrown e => (Thrown e, [])
      | Normal url =>
          match remote_get rt url with
          | Thrown e => (Thrown e, [Called url])
          | Normal None =>
              (Thrown (TypeError "Cannot read properties of undefined"),
               [Called url])
          | Normal (Some body) => (Normal (listItems body), [Called url])
          end
      end
  end.

(** The action that closes a fetch. *)
Definition terminal_action (key : string) (c : Completion (list Item))
  : Action :=
  match c with
  | Normal items => fetchFulfilled key items
  | Thrown e => fetchRejected key e
  end.

(** The store with another template index on file. *)
Definition with_templates (state : IRuntimeState)
  (templates : list IAppListsMetaData) : IRuntimeState :=
  {| formLayout := formLayout state;
     formData := formData state;
     appListState :=
       {| appLists := appLists (appListState state);
          appListsWithIndexIndicator := templates |};
     instance := instance state |}.

(** ** Properties of the middleware *)

(** Reduce the run of a saga whose next effect is known. *)
Ltac run_step := simpl run at 1; cbv beta iota zeta.


Lemma run_bind (rt : Runtime) {A B : Type} (m : Saga A) (f : A -> Saga B)
  (state : IRuntimeState) :
  run rt (bind m f) state =
  match run rt m state with
  | (Returned a, state', ev) =>
      let '(o, state'', ev') := run rt (f a) state' in (o, state'', ev ++ ev')
  | (Aborted e, state', ev) => (Aborted e, state', ev)
  | (Parked, state', ev) => (Parked, state', ev)
  end.
Proof.
  revert state. induction m as [a | e | X eff k IH]; intros state; simpl.
  - destruct (run rt (f a) state) as [[o s] ev]. reflexivity.
  - reflexivity.
  - destruct (perform rt eff state) as [[[c |] s] ev]; [| reflexivity].
    rewrite IH. destruct (run rt (k c) s) as [[[a | e |] s'] ev'];
      try reflexivity.
    destruct (run rt (f a) s') as [[o s''] ev'']. now rewrite app_assoc.
Qed.

Lemma run_try_catch (rt : Runtime) {R : Type} (body : Saga R)
  (handler : JsError -> Saga R) (state : IRuntimeState) :
  run rt (try_catch body handler) state =
  match run rt body state with
  | (Aborted e, state', ev) =>
      let '(o, state'', ev') := run rt (handler e) state' in
      (o, state'', ev ++ ev')
  | other => other
  end.
Proof.
  revert state. induction body as [r | e | X eff k IH]; intros state; simpl.
  - reflexivity.
  - destruct (run rt (handler e) state) as [[o s] ev]. reflexivity.
  - destruct (perform rt eff state) as [[[c |] s] ev]; [| reflexivity].
    rewrite IH. destruct (run rt (k c) s) as [[[a | e |] s'] ev'];
      try reflexivity.
    destruct (run rt (handler e) s') as [[o s''] ev'']. now rewrite app_assoc.
Qed.

Lemma run_fork (rt : Runtime) (args : IFetchSpecificAppListSaga)
  (state : IRuntimeState) :
  run rt (yield (fork args)) state =
  (Returned tt, started rt state args, [Forked args]).
Proof. reflexivity. Qed.

Lemma after_forks_app (rt : Runtime) (a b : list IFetchSpecificAppListSaga)
  (state : IRuntimeState) :
  after_forks rt (a ++ b) state = after_forks rt b (after_forks rt a state).
Proof. apply fold_left_app. Qed.

Lemma run_put (rt : Runtime) (a : Action) (state : IRuntimeState) :
  run rt (yield (put a)) state =
  (Returned tt, rootReducer rt state a, [Dispatched a]).
Proof. reflexivity. Qed.

Lemma forked_app (ev ev' : list Event) :
  forked (ev ++ ev') = forked ev ++ forked ev'.
Proof.
  induction ev as [| [a | args | url] ev IH]; simpl; congruence.
Qed.

Lemma dispatched_app (ev ev' : list Event) :
  dispatched (ev ++ ev') = dispatched ev ++ dispatched ev'.
Proof.
  induction ev as [| [a | args | url] ev IH]; simpl; congruence.
Qed.

Lemma forked_map_Forked (tasks : list IFetchSpecificAppListSaga) :
  forked (map Forked tasks) = tasks.
Proof. induction tasks; simpl; congruence. Qed.

Lemma dispatched_map_Forked (tasks : list IFetchSpecificAppListSaga) :
  dispatched (map Forked tasks) = [].
Proof. induction tasks; simpl; congruence. Qed.

(** ** The orchestrating pass *)

Lemma includes_snoc (xs : list string) (x y : string) :
  includes (xs ++ [x]) y = includes xs y || String.eqb y x.
Proof.
  unfold includes. rewrite existsb_app. simpl. now rewrite orb_false_r.
Qed.

Lemma occurs_in_app (a b : list Occurrence) (key : string) :
  occurs_in (a ++ b) key = occurs_in a key || occurs_in b key.
Proof. unfold occurs_in. apply existsb_app. Qed.

Lemma first_occurrences_app (a b earlier : list Occurrence) :
  first_occurrences earlier (a ++ b) =
  first_occurrences earlier a ++ first_occurrences (earlier ++ a) b.
Proof.
  revert earlier. induction a as [| o a IH]; intros earlier; simpl.
  - now rewrite app_nil_r.
  - rewrite IH, <- app_assoc. simpl.
    destruct (has_appListId o && negb (occurs_in earlier (occ_lookupKey o)));
      reflexivity.
Qed.

Lemma tracks_step (fetched : list string) (earlier : list Occurrence)
  (o : Occurrence) :
  tracks fetched earlier ->
  tracks (if has_appListId o && negb (includes fetched (occ_lookupKey o))
          then fetched ++ [occ_lookupKey o] else fetched)
         (earlier ++ [o]).
Proof.
  intros H key. rewrite occurs_in_app. unfold occurs_in at 2. simpl.
  rewrite orb_false_r.
  destruct (has_appListId o) eqn:Hid; simpl.
  - destruct (includes fetched (occ_lookupKey o)) eqn:Hin; simpl.
    + rewrite H. destruct (String.eqb_spec key (occ_lookupKey o)) as [-> |].
      * rewrite <- H, Hin. reflexivity.
      * now rewrite orb_false_r.
    + now rewrite includes_snoc, H.
  - now rewrite H, orb_false_r.
Qed.

Lemma run_fetch_keys (rt : Runtime) (id : option string)
  (ks : list IAppListsMetaData) :
  forall (fetched : list string) (earlier : list Occurrence)
         (state : IRuntimeState),
    tracks fetched earlier ->
    exists fetched',
      run rt (for_of ks (fetch_key id) fetched) state =
      (Returned fetched',
       after_forks rt
         (map occ_args (first_occurrences earlier (map (mkOcc id) ks))) state,
       map Forked (map occ_args
                     (first_occurrences earlier (map (mkOcc id) ks))))
      /\ tracks fetched' (earlier ++ map (mkOcc id) ks).
Proof.
  induction ks as [| k ks IH]; intros fetched earlier state Htr.
  - exists fetched. simpl. now rewrite app_nil_r.
  - pose proof (tracks_step fetched earlier (mkOcc id k) Htr) as Hstep.
    simpl for_of. rewrite run_bind. unfold fetch_key at 1.
    simpl map. simpl first_occurrences.
    change (has_appListId (mkOcc id k)) with (truthy id) in *.
    change (occ_lookupKey (mkOcc id k))
      with (getAppListLookupKey (meta_id k) (meta_mapping k)) in *.
    rewrite <- (Htr (getAppListLookupKey (meta_id k) (meta_mapping k))).
    destruct (truthy id
              && negb (includes fetched
                         (getAppListLookupKey (meta_id k) (meta_mapping k)))).
    + rewrite run_bind, run_fork. simpl run at 1.
      destruct (IH _ _ (started rt state (occ_args (mkOcc id k))) Hstep)
        as [fetched' [Hrun Htr']].
      unfold occ_args at 1 in Hrun. simpl in Hrun.
      exists fetched'. rewrite Hrun. simpl. split; [reflexivity |].
      now rewrite <- app_assoc in Htr'.
    + simpl run at 1.
      destruct (IH _ _ state Hstep) as [fetched' [Hrun Htr']].
      exists fetched'. rewrite Hrun. simpl. split; [reflexivity |].
      now rewrite <- app_assoc in Htr'.
Qed.

Lemma run_visit_element (rt : Runtime) (groups : IRepeatingGroups)
  (element : ILayoutCompList) (s : PassState) (earlier : list Occurrence)
  (state : IRuntimeState) :
  tracks (fetchedAppLists s) earlier ->
  exists s',
    run rt (visit_element groups element s) state =
    (Returned s',
     after_forks rt
       (map occ_args
          (first_occurrences earlier (element_occurrences groups element)))
       state,
     map Forked (map occ_args
                   (first_occurrences earlier
                      (element_occurrences groups element))))
    /\ tracks (fetchedAppLists s')
              (earlier ++ element_occurrences groups element)
    /\ appListsWithIndexIndicators s' =
       appListsWithIndexIndicators s ++ element_template groups element.
Proof.
  intros Htr. unfold visit_element, element_occurrences, element_template.
  set (resolved := getAppListLookupKeys _ _ _ _).
  assert (Hw : match keyWithIndexIndicator resolved with
               | Some k => appListsWithIndexIndicators s ++ [k]
               | None => appListsWithIndexIndicators s
               end =
               appListsWithIndexIndicators s ++
               match keyWithIndexIndicator resolved with
               | Some k => [k]
               | None => []
               end).
  { destruct (keyWithIndexIndicator resolved); [reflexivity |].
    now rewrite app_nil_r. }
  destruct (keys resolved) as [ks |].
  - destruct ks as [| k ks].
    + simpl. eexists. split; [reflexivity |]. simpl.
      rewrite app_nil_r. split; [exact Htr | exact Hw].
    + cbn [List.length Nat.eqb]. rewrite run_bind.
      destruct (run_fetch_keys rt (comp_appListId element) (k :: ks)
                  _ _ state Htr) as [fetched' [Hrun Htr']].
      rewrite Hrun. simpl run. eexists. split.
      * rewrite app_nil_r. reflexivity.
      * simpl. split; [exact Htr' | exact Hw].
  - simpl. eexists. split; [reflexivity |]. simpl.
    rewrite app_nil_r. split; [exact Htr | exact Hw].
Qed.

Lemma run_visit_elements (rt : Runtime) (groups : IRepeatingGroups)
  (elements : list ILayoutCompList) :
  forall (s : PassState) (earlier : list Occurrence) (state : IRuntimeState),
    tracks (fetchedAppLists s) earlier ->
    exists s',
      run rt (for_of elements (visit_element groups) s) state =
      (Returned s',
       after_forks rt
         (map occ_args
            (first_occurrences earlier
               (flat_map (element_occurrences groups) elements)))
         state,
       map Forked (map occ_args
                     (first_occurrences earlier
                        (flat_map (element_occurrences groups) elements))))
      /\ tracks (fetchedAppLists s')
                (earlier ++ flat_map (element_occurrences groups) elements)
      /\ appListsWithIndexIndicators s' =
         appListsWithIndexIndicators s ++
         flat_map (element_template groups) elements.
Proof.
  induction elements as [| element elements IH]; intros s earlier state Htr.
  - exists s. simpl. now rewrite !app_nil_r.
  - simpl for_of. rewrite run_bind.
    destruct (run_visit_element rt groups element s earlier state Htr)
      as [s1 [Hrun1 [Htr1 Hw1]]].
    rewrite Hrun1.
    destruct (IH s1 _ (after_forks rt
                         (map occ_args
                            (first_occurrences earlier
                               (element_occurrences groups element)))
                         state) Htr1) as [s2 [Hrun2 [Htr2 Hw2]]].
    rewrite Hrun2. exists s2. simpl flat_map.
    rewrite first_occurrences_app, !map_app, after_forks_app, !app_assoc.
    repeat split; try assumption.
    now rewrite Hw2, Hw1, <- app_assoc.
Qed.

Lemma run_visit_pages (rt : Runtime) (groups : IRepeatingGroups)
  (pages : ILayouts) :
  forall (s : PassState) (earlier : list Occurrence) (state : IRuntimeState),
    tracks (fetchedAppLists s) earlier ->
    exists s',
      run rt (for_of pages
                (fun page s => for_of (snd page) (visit_element groups) s) s)
          state =
      (Returned s',
       after_forks rt
         (map occ_args (first_occurrences earlier (occurrences pages groups)))
         state,
       map Forked (map occ_args
                     (first_occurrences earlier (occurrences pages groups))))
      /\ appListsWithIndexIndicators s' =
         appListsWithIndexIndicators s ++ templates_seen pages groups.
Proof.
  induction pages as [| page pages IH]; intros s earlier state Htr.
  - exists s. simpl. now rewrite app_nil_r.
  - simpl for_of. rewrite run_bind.
    destruct (run_visit_elements rt groups (snd page) s earlier state Htr)
      as [s1 [Hrun1 [Htr1 Hw1]]].
    rewrite Hrun1.
    destruct (IH s1 _ (after_forks rt
                         (map occ_args
                            (first_occurrences earlier
                               (flat_map (element_occurrences groups)
                                         (snd page))))
                         state) Htr1) as [s2 [Hrun2 Hw2]].
    rewrite Hrun2. exists s2. unfold occurrences, templates_seen.
    simpl flat_map.
    rewrite first_occurrences_app, !map_app, after_forks_app, !app_assoc.
    split; [reflexivity |].
    unfold templates_seen in Hw2. rewrite Hw2, Hw1. reflexivity.
Qed.

(** The whole pass: one fork per first occurrence, then the single store
    update, which is the last effect of the saga and meets the store as the
    started tasks left it. *)
Lemma run_fetchAppListsSaga (rt : Runtime) (state : IRuntimeState)
  (pages : ILayouts) (groups : IRepeatingGroups) :
  formLayoutSelector state = Some pages ->
  repeatingGroupsSelector state = Some groups ->
  run rt fetchAppListsSaga state =
  (Returned tt,
   rootReducer rt
     (after_forks rt
        (map occ_args (first_occurrences [] (occurrences pages groups)))
        state)
     (setAppListsWithIndexIndicators (templates_seen pages groups)),
   map Forked (map occ_args
                 (first_occurrences [] (occurrences pages groups)))
   ++ [Dispatched
         (setAppListsWithIndexIndicators (templates_seen pages groups))]).
Proof.
  intros Hl Hg. unfold fetchAppListsSaga.
  cbn [bind yield run perform resume]. rewrite Hl.
  cbn [bind yield run perform resume]. rewrite Hg.
  cbn [bind yield run perform resume app].
  rewrite run_bind.
  destruct (run_visit_pages rt groups pages (mkPass [] []) [] state)
    as [s' [Hrun Hw]].
  { intros key. reflexivity. }
  rewrite Hrun, run_put. simpl in Hw. rewrite Hw. reflexivity.
Qed.


Lemma count_first_occurrences (rest : list Occurrence) :
  forall (earlier : list Occurrence) (key : string),
    count_occ string_dec
      (map occ_lookupKey (first_occurrences earlier rest)) key =
    if occurs_in earlier key then 0
    else if occurs_in rest key then 1 else 0.
Proof.
  induction rest as [| o rest IH]; intros earlier key.
  - simpl. now destruct (occurs_in earlier key).
  - simpl first_occurrences.
    assert (Hsnoc : occurs_in (earlier ++ [o]) key =
                    occurs_in earlier key
                    || (has_appListId o && String.eqb key (occ_lookupKey o))).
    { rewrite occurs_in_app. unfold occurs_in at 2. simpl.
      now rewrite orb_false_r. }
    assert (Hcons : occurs_in (o :: rest) key =
                    (has_appListId o && String.eqb key (occ_lookupKey o))
                    || occurs_in rest key) by reflexivity.
    destruct (has_appListId o) eqn:Hid; simpl andb in *.
    + destruct (occurs_in earlier (occ_lookupKey o)) eqn:Hseen; simpl negb.
      * cbv iota. rewrite IH, Hsnoc, Hcons.
        destruct (String.eqb_spec key (occ_lookupKey o)) as [-> |].
        -- now rewrite Hseen.
        -- now rewrite orb_false_r.
      * cbv iota. simpl map. simpl count_occ.
        destruct (string_dec (occ_lookupKey o) key) as [Heq | Hne].
        -- subst key. rewrite IH, Hsnoc, Hcons, Hseen, String.eqb_refl.
           reflexivity.
        -- rewrite IH, Hsnoc, Hcons.
           destruct (String.eqb_spec key (occ_lookupKey o)) as [Heq |].
           ++ now symmetry in Heq.
           ++ now rewrite orb_false_r.
    + cbv iota. rewrite IH, Hsnoc, Hcons. now rewrite orb_false_r.
Qed.

Lemma in_first_occurrences (rest : list Occurrence) :
  forall (earlier : list Occurrence) (o : Occurrence),
    In o (first_occurrences earlier rest) <->
    exists pre post,
      rest = pre ++ o :: post
      /\ has_appListId o = true
      /\ occurs_in (earlier ++ pre) (occ_lookupKey o) = false.
Proof.
  induction rest as [| x rest IH]; intros earlier o; simpl.
  - split; [intros [] |]. intros [pre [post [H _]]].
    now destruct pre.
  - split.
    + intros Hin.
      assert (Hrest : In o (first_occurrences (earlier ++ [x]) rest) ->
                      exists pre post,
                        x :: rest = pre ++ o :: post
                        /\ has_appListId o = true
                        /\ occurs_in (earlier ++ pre) (occ_lookupKey o) = false).
      { intros H. apply IH in H. destruct H as [pre [post [-> [Hid Hno]]]].
        exists (x :: pre), post. rewrite <- app_assoc in Hno. now repeat split. }
      destruct (has_appListId x && negb (occurs_in earlier (occ_lookupKey x)))
        eqn:Hkeep; [| now apply Hrest].
      destruct Hin as [-> | Hin]; [| now apply Hrest].
      apply andb_true_iff in Hkeep. destruct Hkeep as [Hid Hno].
      apply negb_true_iff in Hno.
      exists [], rest. rewrite app_nil_r. now repeat split.
    + intros [pre [post [Heq [Hid Hno]]]].
      destruct pre as [| y pre]; simpl in Heq; inversion Heq; subst.
      * rewrite app_nil_r in Hno. rewrite Hid, Hno. simpl. now left.
      * assert (In o (first_occurrences (earlier ++ [y]) (pre ++ o :: post))).
        { apply IH. exists pre, post. rewrite <- app_assoc. now repeat split. }
        destruct (has_appListId y && negb (occurs_in earlier (occ_lookupKey y)));
          [now right | assumption].
Qed.

(** ** Objects *)

Lemma includes_In (xs : list string) (x : string) :
  includes xs x = true <-> In x xs.
Proof.
  unfold includes. rewrite existsb_exists. split.
  - intros [y [Hin Heq]]. apply String.eqb_eq in Heq. now subst.
  - intros Hin. exists x. split; [exact Hin | apply String.eqb_refl].
Qed.

Lemma obj_get_None {V : Type} (o : list (string * V)) (k : string) :
  ~ In k (Object_keys o) -> obj_get o k = None.
Proof.
  unfold Object_keys. induction o as [| [k' v'] o IH]; simpl; intros Hnot.
  - reflexivity.
  - destruct (String.eqb_spec k k') as [-> | Hne].
    + exfalso. apply Hnot. now left.
    + apply IH. intros Hin. apply Hnot. now right.
Qed.













(** ** The new mapping *)













(** ** The reactor *)

Lemma run_refetch_exact (rt : Runtime) (field : string)
  (stored : list (string * IAppListsMetaData)) :
  forall (found : bool) (state : IRuntimeState),
    run rt (for_of stored (refetch_exact field) found) state =
    (Returned (found || negb (Nat.eqb (List.length (exact_matches field stored)) 0)),
     after_forks rt (map refetch_args (exact_matches field stored)) state,
     map Forked (map refetch_args (exact_matches field stored))).
Proof.
  induction stored as [| entry stored IH]; intros found state.
  - simpl. now rewrite orb_false_r.
  - simpl for_of. rewrite run_bind. unfold refetch_exact at 1.
    unfold exact_matches. simpl map. simpl filter.
    destruct (mapping_includes (meta_mapping (snd entry)) field).
    + rewrite run_bind, run_fork. run_step.
      rewrite IH. simpl. now rewrite orb_true_r.
    + run_step. rewrite IH. reflexivity.
Qed.

Lemma template_forks_hits (field : string)
  (templates : list IAppListsMetaData) (t : IAppListsMetaData) :
  template_forks field (template_hits field (t :: templates)) =
  if template_matches (meta_mapping t) field
  then template_forks field (t :: template_hits field templates)
  else template_forks field (template_hits field templates).
Proof.
  unfold template_hits. simpl filter.
  now destruct (template_matches (meta_mapping t) field).
Qed.

Lemma run_refetch_template (rt : Runtime) (field : string)
  (templates : list IAppListsMetaData) :
  forall (state : IRuntimeState),
    run rt (for_of templates (refetch_template field) tt) state =
    (snd (template_forks field (template_hits field templates)),
     after_forks rt
       (fst (template_forks field (template_hits field templates))) state,
     map Forked (fst (template_forks field (template_hits field templates)))).
Proof.
  induction templates as [| t templates IH]; intros state.
  - reflexivity.
  - simpl for_of. rewrite run_bind, template_forks_hits.
    unfold refetch_template at 1.
    destruct (meta_mapping t) as [m |] eqn:Hm.
    + destruct (template_matches (Some m) field).
      * simpl template_forks. unfold concretise_args at 1 2 3. rewrite Hm.
        destruct (newDataMapping m (getKeyIndex field)) as [built | e].
        -- simpl resume. simpl bind. rewrite run_fork. cbv beta iota zeta.
           rewrite IH. reflexivity.
        -- reflexivity.
      * run_step. rewrite IH. reflexivity.
    + simpl template_matches. run_step. rewrite IH. reflexivity.
Qed.

Lemma run_checkIfAppListsShouldRefetchSaga (rt : Runtime) (field : string)
  (state : IRuntimeState) :
  run rt (checkIfAppListsShouldRefetchSaga field) state =
  match exact_matches field (appListsSelector state) with
  | [] =>
      let forks :=
        template_forks field
          (template_hits field (appListsWithIndexIndicatorsSelector state)) in
      (snd forks, after_forks rt (fst forks) state, map Forked (fst forks))
  | hits =>
      (Returned tt,
       after_forks rt (map refetch_args hits) state,
       map Forked (map refetch_args hits))
  end.
Proof.
  unfold checkIfAppListsShouldRefetchSaga.
  cbn [bind yield run perform resume total app].
  rewrite run_bind, run_refetch_exact. cbn [orb].
  destruct (exact_matches field (appListsSelector state)) as [| e hits].
  - cbn [List.length Nat.eqb negb map]. rewrite run_refetch_template.
    reflexivity.
  - cbn [List.length Nat.eqb negb]. simpl run. cbv beta iota zeta.
    now rewrite app_nil_r.
Qed.

(** The forks of the template loop are the fetches of the templates up to
    the first one the helper fails on. *)
Lemma template_forks_spec (field : string) (hits : list IAppListsMetaData) :
  exists done rest,
    hits = done ++ rest
    /\ map Normal (fst (template_forks field hits)) =
       map (concretise_args field) done
    /\ ((rest = [] /\ snd (template_forks field hits) = Returned tt)
        \/ exists t rest' e,
             rest = t :: rest'
             /\ concretise_args field t = Thrown e
             /\ snd (template_forks field hits) = Aborted e).
Proof.
  induction hits as [| t hits IH]; simpl.
  - exists [], []. split; [reflexivity |]. split; [reflexivity |].
    left. now split.
  - destruct (concretise_args field t) as [args | e] eqn:Ht.
    + destruct IH as [done [rest [-> [Hmap Hend]]]].
      exists (t :: done), rest. split; [reflexivity |]. simpl.
      split; [now rewrite Ht, Hmap | exact Hend].
    + exists [], (t :: hits). split; [reflexivity |].
      split; [reflexivity |]. right. now exists t, hits, e.
Qed.

(** ** One fetch *)

Lemma run_fetchSpecificAppListSaga (rt : Runtime) (state : IRuntimeState)
  (args : IFetchSpecificAppListSaga) :
  let loading := rootReducer rt state (fetching (key_of args) (metaData_of args)) in
  let result := attempt_result rt loading args (instanceIdSelector state) in
  run rt (fetchSpecificAppListSaga args) state =
  (Returned tt,
   rootReducer rt loading (terminal_action (key_of args) (fst result)),
   Dispatched (fetching (key_of args) (metaData_of args))
   :: snd result
   ++ [Dispatched (terminal_action (key_of args) (fst result))]).
Proof.
  unfold fetchSpecificAppListSaga, fetch_attempt, attempt_result, key_of,
    metaData_of.
  cbn [bind yield run perform resume total try_catch app].
  destruct (appLanguageStateSelector _) as [language | e];
    [| reflexivity].
  cbn [bind yield run perform resume total try_catch app].
  destruct (getAppListsUrl _ _ _ _ _ _) as [url | e]; [| reflexivity].
  cbn [bind yield run perform resume total try_catch app].
  destruct (remote_get rt url) as [[body |] | e]; reflexivity.
Qed.

Lemma attempt_throws_result (rt : Runtime) (state : IRuntimeState)
  (args : IFetchSpecificAppListSaga) (instanceId : option string)
  (e : JsError) :
  attempt_throws rt state args instanceId e <->
  fst (attempt_result rt state args instanceId) = Thrown e.
Proof.
  unfold attempt_result. split.
  - intros [e' H | language e' Hl H | language url e' Hl Hu H
            | language url Hl Hu H];
      rewrite ?Hl, ?Hu, ?H; reflexivity.
  - destruct (appLanguageStateSelector state) as [language | e1] eqn:Hl.
    + destruct (getAppListsUrl _ _ _ _ _ _) as [url | e2] eqn:Hu.
      * destruct (remote_get rt url) as [[body |] | e3] eqn:Hg; simpl;
          intros H; inversion H; subst.
        -- eapply listItems_throws; eassumption.
        -- eapply get_throws; eassumption.
      * simpl. intros H. inversion H; subst.
        eapply url_throws; eassumption.
    + simpl. intros H. inversion H; subst. now apply language_throws.
Qed.

Lemma dispatched_attempt (rt : Runtime) (state : IRuntimeState)
  (args : IFetchSpecificAppListSaga) (instanceId : option string) :
  dispatched (snd (attempt_result rt state args instanceId)) = [].
Proof.
  unfold attempt_result.
  destruct (appLanguageStateSelector state); [| reflexivity].
  destruct (getAppListsUrl _ _ _ _ _ _) as [url |]; [| reflexivity].
  now destruct (remote_get rt url) as [[|] |].
Qed.

Lemma dispatched_fetchSpecificAppListSaga (rt : Runtime)
  (state : IRuntimeState) (args : IFetchSpecificAppListSaga) :
  dispatched (events (run rt (fetchSpecificAppListSaga args) state)) =
  [fetching (key_of args) (metaData_of args);
   terminal_action (key_of args)
     (fst (attempt_result rt
             (rootReducer rt state (fetching (key_of args) (metaData_of args)))
             args (instanceIdSelector state)))].
Proof.
  rewrite run_fetchSpecificAppListSaga. unfold events. simpl snd.
  simpl dispatched. rewrite dispatched_app, dispatched_attempt. reflexivity.
Qed.

Lemma run_forked_cons (rt : Runtime) (task : IFetchSpecificAppListSaga)
  (rest : list IFetchSpecificAppListSaga) (state : IRuntimeState) :
  run_forked rt (task :: rest) state =
  match run rt (fetchSpecificAppListSaga task) state with
  | (Returned _, state', ev) =>
      let '(o, state'', ev') := run_forked rt rest state' in
      (o, state'', ev ++ ev')
  | (Aborted e, state', ev) => (Aborted e, state', ev)
  | (Parked, state', ev) => (Parked, state', ev)
  end.
Proof. reflexivity. Qed.

Lemma run_forked_all (rt : Runtime) (tasks : list IFetchSpecificAppListSaga) :
  forall state,
    outcome (run_forked rt tasks state) = Returned tt
    /\ List.length (dispatched (events (run_forked rt tasks state))) =
       2 * List.length tasks.
Proof.
  induction tasks as [| task tasks IH]; intros state.
  - split; reflexivity.
  - rewrite run_forked_cons, run_fetchSpecificAppListSaga.
    cbv beta iota zeta.
    match goal with
    | |- context [run_forked rt tasks ?s] =>
        destruct (IH s) as [Ho Hl]; revert Ho Hl;
        destruct (run_forked rt tasks s) as [[o s'] ev]
    end.
    cbv beta iota zeta. unfold outcome, events in *.
    simpl fst in *. simpl snd in *.
    intros Ho Hl. split; [exact Ho |].
    simpl dispatched. rewrite !dispatched_app, dispatched_attempt.
    simpl. rewrite Hl. lia.
Qed.


Lemma mapping_includes_spec (mapping : option IMapping) (field : string) :
  mapping_includes mapping field = true <->
  exists m, mapping = Some m /\ In field (Object_keys m).
Proof.
  destruct mapping as [m |]; simpl.
  - rewrite includes_In. split.
    + intros H. now exists m.
    + intros [m' [Heq H]]. now inversion Heq.
  - split; [discriminate | now intros [m [H _]]].
Qed.


Lemma in_exact_matches (field : string)
  (stored : list (string * IAppListsMetaData)) (e : IAppListsMetaData) :
  In e (exact_matches field stored) <->
  In e (map snd stored)
  /\ exists m, meta_mapping e = Some m /\ In field (Object_keys m).
Proof.
  unfold exact_matches. now rewrite filter_In, mapping_includes_spec.
Qed.


(** ** Main results about the sagas *)

(** C1. One run of [fetchAppListsSaga] forks [fetchSpecificAppListSaga]
    exactly once per distinct lookup key met for a component that has an
    [appListId]: the forked tasks are those of the first occurrences in
    traversal order, every such lookup key is forked once and no other key
    is forked, and a forked occurrence has no earlier occurrence of its
    lookup key, so that every later one is skipped. *)
Theorem fetchAppListsSaga_forks_once_per_lookup_key (rt : Runtime)
  (state : IRuntimeState) (pages : ILayouts) (groups : IRepeatingGroups) :
  formLayoutSelector state = Some pages ->
  repeatingGroupsSelector state = Some groups ->
  let firsts := first_occurrences [] (occurrences pages groups) in
  forked (events (run rt fetchAppListsSaga state)) = map occ_args firsts
  /\ (forall key,
        count_occ string_dec (map occ_lookupKey firsts) key =
        if occurs_in (occurrences pages groups) key then 1 else 0)
  /\ (forall o,
        In o firsts <->
        exists pre post,
          occurrences pages groups = pre ++ o :: post
          /\ has_appListId o = true
          /\ occurs_in pre (occ_lookupKey o) = false).
Proof.
  intros Hl Hg firsts. repeat split.
  - rewrite (run_fetchAppListsSaga rt state pages groups Hl Hg).
    unfold events. simpl snd. rewrite forked_app, forked_map_Forked.
    simpl. now rewrite app_nil_r.
  - intros key. unfold firsts. now rewrite count_first_occurrences.
  - intros H. now apply in_first_occurrences in H.
  - intros H. now apply in_first_occurrences.
Qed.

(** The statable part of C5: a run that passes its two [selectNotNull]
    dispatches one action, the store update, as its last effect after all
    the forks, and the payload holds every [keyWithIndexIndicator] the
    resolver returned. *)
Lemma fetchAppListsSaga_records_templates (rt : Runtime)
  (state : IRuntimeState) (pages : ILayouts) (groups : IRepeatingGroups) :
  formLayoutSelector state = Some pages ->
  repeatingGroupsSelector state = Some groups ->
  dispatched (events (run rt fetchAppListsSaga state)) =
  [setAppListsWithIndexIndicators (templates_seen pages groups)]
  /\ events (run rt fetchAppListsSaga state) =
     map Forked (forked (events (run rt fetchAppListsSaga state)))
     ++ [Dispatched
           (setAppListsWithIndexIndicators (templates_seen pages groups))]
  /\ (forall page element k,
        In page pages -> In element (snd page) ->
        keyWithIndexIndicator
          (getAppListLookupKeys (comp_appListId element)
             (comp_mapping element) (comp_secure element) groups) = Some k ->
        In k (templates_seen pages groups)).
Proof.
  intros Hl Hg. rewrite (run_fetchAppListsSaga rt state pages groups Hl Hg).
  unfold events. simpl snd. repeat split.
  - now rewrite dispatched_app, dispatched_map_Forked.
  - rewrite forked_app, forked_map_Forked. simpl. now rewrite app_nil_r.
  - intros page element k Hp He Hk. unfold templates_seen.
    apply in_flat_map. exists page. split; [exact Hp |].
    apply in_flat_map. exists element. split; [exact He |].
    unfold element_template. rewrite Hk. now left.
Qed.

(** C2. When some stored entry has the changed field among the keys of its
    mapping, [checkIfAppListsShouldRefetchSaga] forks one refetch for each
    such entry and nothing else, and returns; the template index is not
    consulted: the run is the same whatever templates are on file. *)
Theorem exact_matches_take_precedence (rt : Runtime) (state : IRuntimeState)
  (field : string) :
  exact_matches field (appListsSelector state) <> [] ->
  outcome (run rt (checkIfAppListsShouldRefetchSaga field) state) = Returned tt
  /\ events (run rt (checkIfAppListsShouldRefetchSaga field) state) =
     map Forked (map refetch_args (exact_matches field (appListsSelector state)))
  /\ (forall templates,
        events (run rt (checkIfAppListsShouldRefetchSaga field)
                  (with_templates state templates)) =
        events (run rt (checkIfAppListsShouldRefetchSaga field) state))
  /\ (forall e,
        In e (exact_matches field (appListsSelector state)) <->
        In e (map snd (appListsSelector state))
        /\ exists m, meta_mapping e = Some m /\ In field (Object_keys m)).
Proof.
  intros Hhit. split; [| split; [| split]].
  - rewrite run_checkIfAppListsShouldRefetchSaga.
    destruct (exact_matches field (appListsSelector state));
      [now contradiction Hhit | reflexivity].
  - rewrite run_checkIfAppListsShouldRefetchSaga.
    destruct (exact_matches field (appListsSelector state));
      [now contradiction Hhit | reflexivity].
  - intros templates. rewrite !run_checkIfAppListsShouldRefetchSaga.
    change (appListsSelector (with_templates state templates))
      with (appListsSelector state).
    destruct (exact_matches field (appListsSelector state));
      [now contradiction Hhit | reflexivity].
  - intros e. apply in_exact_matches.
Qed.


(** C6. When a step of the [try] block after the [fetching] dispatch throws
    [e], the saga dispatches [fetchRejected] with the lookup key computed at
    entry and with [e], and returns without rethrowing; hence, among the
    tasks forked in one pass, no task aborts the others: all of them run. *)
Theorem fetchSpecificAppListSaga_catches_failure (rt : Runtime)
  (state : IRuntimeState) (args : IFetchSpecificAppListSaga) (e : JsError) :
  attempt_throws rt
    (rootReducer rt state (fetching (key_of args) (metaData_of args)))
    args (instanceIdSelector state) e ->
  outcome (run rt (fetchSpecificAppListSaga args) state) = Returned tt
  /\ dispatched (events (run rt (fetchSpecificAppListSaga args) state)) =
     [fetching (key_of args) (metaData_of args); fetchRejected (key_of args) e]
  /\ (forall before after state0,
        outcome (run_forked rt (before ++ args :: after) state0) = Returned tt
        /\ List.length
             (dispatched (events (run_forked rt (before ++ args :: after) state0))) =
           2 * List.length (before ++ args :: after)).
Proof.
  intros Hthrows. apply attempt_throws_result in Hthrows. repeat split.
  - now rewrite run_fetchSpecificAppListSaga.
  - rewrite dispatched_fetchSpecificAppListSaga, Hthrows. reflexivity.
  - apply run_forked_all.
  - apply run_forked_all.
Qed.

(** C9. Every run of [fetchSpecificAppListSaga] dispatches [fetching] first
    and then exactly one of [fetchFulfilled] and [fetchRejected], nothing
    else, and returns; all of these actions carry the key computed at entry
    from the list id and the data mapping. *)
Theorem fetchSpecificAppListSaga_one_terminal_action (rt : Runtime)
  (state : IRuntimeState) (args : IFetchSpecificAppListSaga) :
  exists terminal,
    dispatched (events (run rt (fetchSpecificAppListSaga args) state)) =
    [fetching (getAppListLookupKey (appListId args) (dataMapping args))
              (metaData_of args);
     terminal]
    /\ ((exists items,
           terminal =
           fetchFulfilled
             (getAppListLookupKey (appListId args) (dataMapping args)) items)
        \/ (exists e,
              terminal =
              fetchRejected
                (getAppListLookupKey (appListId args) (dataMapping args)) e))
    /\ outcome (run rt (fetchSpecificAppListSaga args) state) = Returned tt.
Proof.
  eexists. split; [apply dispatched_fetchSpecificAppListSaga |]. split.
  - destruct (fst (attempt_result _ _ _ _)) as [items | e]; simpl.
    + left. now exists items.
    + right. now exists e.
  - now rewrite run_fetchSpecificAppListSaga.
Qed.


(** ** Further properties of the sagas *)

Lemma in_occurrences (pages : ILayouts) (groups : IRepeatingGroups)
  (o : Occurrence) :
  In o (occurrences pages groups) <->
  exists page element ks k,
    In page pages
    /\ In element (snd page)
    /\ keys (getAppListLookupKeys (comp_appListId element)
               (comp_mapping element) (comp_secure element) groups) = Some ks
    /\ In k ks
    /\ o = mkOcc (comp_appListId element) k.
Proof.
  unfold occurrences. rewrite in_flat_map. split.
  - intros [page [Hp Ho]]. apply in_flat_map in Ho.
    destruct Ho as [element [He Ho]]. unfold element_occurrences in Ho.
    destruct (keys _) as [ks |] eqn:Hk; [| contradiction].
    apply in_map_iff in Ho. destruct Ho as [k [Heq Hin]].
    exists page, element, ks, k. now repeat split.
  - intros [page [element [ks [k [Hp [He [Hk [Hin ->]]]]]]]].
    exists page. split; [exact Hp |]. apply in_flat_map.
    exists element. split; [exact He |]. unfold element_occurrences.
    rewrite Hk. now apply in_map.
Qed.

Lemma forked_fetchAppListsSaga (rt : Runtime) (state : IRuntimeState)
  (pages : ILayouts) (groups : IRepeatingGroups) :
  formLayoutSelector state = Some pages ->
  repeatingGroupsSelector state = Some groups ->
  forked (events (run rt fetchAppListsSaga state)) =
  map occ_args (first_occurrences [] (occurrences pages groups)).
Proof.
  intros Hl Hg. rewrite (run_fetchAppListsSaga rt state pages groups Hl Hg).
  unfold events. simpl snd. rewrite forked_app, forked_map_Forked.
  simpl. now rewrite app_nil_r.
Qed.

(** X2. A task forked by the pass belongs to a component of the layouts
    whose [appListId] is defined and not empty: the task carries that id,
    and the mapping and the secure flag of one of the keys resolved for the
    component. Layouts without such a component fork nothing. *)
Theorem fetchAppListsSaga_forks_only_for_list_components (rt : Runtime)
  (state : IRuntimeState) (pages : ILayouts) (groups : IRepeatingGroups) :
  formLayoutSelector state = Some pages ->
  repeatingGroupsSelector state = Some groups ->
  (forall args,
     In args (forked (events (run rt fetchAppListsSaga state))) ->
     truthy (appListId args) = true
     /\ exists page element ks k,
          In page pages
          /\ In element (snd page)
          /\ keys (getAppListLookupKeys (comp_appListId element)
                     (comp_mapping element) (comp_secure element) groups)
             = Some ks
          /\ In k ks
          /\ args = {| appListId := comp_appListId element;
                       dataMapping := meta_mapping k;
                       secure := meta_secure k |})
  /\ ((forall page element,
         In page pages -> In element (snd page) ->
         truthy (comp_appListId element) = false) ->
      forked (events (run rt fetchAppListsSaga state)) = []).
Proof.
  intros Hl Hg.
  assert (Hall : forall args,
             In args (forked (events (run rt fetchAppListsSaga state))) ->
             truthy (appListId args) = true
             /\ exists page element ks k,
                  In page pages
                  /\ In element (snd page)
                  /\ keys (getAppListLookupKeys (comp_appListId element)
                             (comp_mapping element) (comp_secure element)
                             groups) = Some ks
                  /\ In k ks
                  /\ args = {| appListId := comp_appListId element;
                               dataMapping := meta_mapping k;
                               secure := meta_secure k |}).
  { intros args Hin.
    rewrite (forked_fetchAppListsSaga rt state pages groups Hl Hg) in Hin.
    apply in_map_iff in Hin. destruct Hin as [o [<- Ho]].
    apply in_first_occurrences in Ho.
    destruct Ho as [pre [post [Hocc [Hid _]]]].
    split; [exact Hid |].
    assert (Hin : In o (occurrences pages groups)).
    { rewrite Hocc. apply in_or_app. right. now left. }
    apply in_occurrences in Hin.
    destruct Hin as [page [element [ks [k [Hp [He [Hk [Hkin ->]]]]]]]].
    exists page, element, ks, k. now repeat split. }
  split; [exact Hall |].
  intros Hnone.
  destruct (forked (events (run rt fetchAppListsSaga state)))
    as [| args rest] eqn:Hf; [reflexivity |].
  destruct (Hall args (or_introl eq_refl))
    as [Hid [page [element [ks [k [Hp [He [_ [_ ->]]]]]]]]].
  simpl in Hid. rewrite (Hnone page element Hp He) in Hid. discriminate.
Qed.

(** X3. What a pass forks and dispatches depends on the layouts and the
    repeating groups only: the entries already in the store, the form data
    and the remote endpoint play no part, so a second pass over the same
    layouts forks every task again. *)
Theorem fetchAppListsSaga_ignores_the_store (rt rt' : Runtime)
  (state state' : IRuntimeState) (pages : ILayouts)
  (groups : IRepeatingGroups) :
  formLayoutSelector state = Some pages ->
  repeatingGroupsSelector state = Some groups ->
  formLayoutSelector state' = Some pages ->
  repeatingGroupsSelector state' = Some groups ->
  events (run rt fetchAppListsSaga state) =
  events (run rt' fetchAppListsSaga state').
Proof.
  intros Hl Hg Hl' Hg'.
  rewrite (run_fetchAppListsSaga rt state pages groups Hl Hg).
  rewrite (run_fetchAppListsSaga rt' state' pages groups Hl' Hg').
  reflexivity.
Qed.

(** X4. When the resolver gives every key the id of its component, the
    tasks forked in one pass have pairwise different lookup keys, so no two
    of them write the same entry of the store. *)
Theorem fetchAppListsSaga_forks_distinct_store_keys (rt : Runtime)
  (state : IRuntimeState) (pages : ILayouts) (groups : IRepeatingGroups) :
  formLayoutSelector state = Some pages ->
  repeatingGroupsSelector state = Some groups ->
  (forall page element ks k,
     In page pages -> In element (snd page) ->
     keys (getAppListLookupKeys (comp_appListId element)
             (comp_mapping element) (comp_secure element) groups) = Some ks ->
     In k ks ->
     meta_id k = comp_appListId element) ->
  NoDup (map key_of (forked (events (run rt fetchAppListsSaga state)))).
Proof.
  intros Hl Hg Hid.
  rewrite (forked_fetchAppListsSaga rt state pages groups Hl Hg), map_map.
  rewrite (map_ext_in _ occ_lookupKey).
  - apply (NoDup_count_occ string_dec). intros key.
    rewrite count_first_occurrences. simpl.
    destruct (occurs_in (occurrences pages groups) key); lia.
  - intros o Ho. apply in_first_occurrences in Ho.
    destruct Ho as [pre [post [Hocc _]]].
    assert (Hin : In o (occurrences pages groups)).
    { rewrite Hocc. apply in_or_app. right. now left. }
    apply in_occurrences in Hin.
    destruct Hin as [page [element [ks [k [Hp [He [Hk [Hkin ->]]]]]]]].
    unfold key_of, occ_lookupKey, occ_args. simpl.
    now rewrite (Hid page element ks k Hp He Hk Hkin).
Qed.

(** X5. When the language selector, the URL helper and the remote call all
    succeed and the response has a body, the fetch dispatches [fetching],
    calls the endpoint once and dispatches [fetchFulfilled] with the
    [listItems] of the body under the same key. The instance id is read
    before the [fetching] dispatch, the form data and the language after
    it. *)
Theorem fetchSpecificAppListSaga_fulfils (rt : Runtime)
  (state : IRuntimeState) (args : IFetchSpecificAppListSaga)
  (language url : string) (body : IAppList) :
  let loading :=
    rootReducer rt state (fetching (key_of args) (metaData_of args)) in
  appLanguageStateSelector loading = Normal language ->
  getAppListsUrl (appListId args) (formDataSelector loading) language
                 (dataMapping args) (secure args) (instanceIdSelector state)
  = Normal url ->
  remote_get rt url = Normal (Some body) ->
  run rt (fetchSpecificAppListSaga args) state =
  (Returned tt,
   rootReducer rt loading (fetchFulfilled (key_of args) (listItems body)),
   [Dispatched (fetching (key_of args) (metaData_of args));
    Called url;
    Dispatched (fetchFulfilled (key_of args) (listItems body))]).
Proof.
  intros loading Hl Hu Hg. rewrite run_fetchSpecificAppListSaga.
  fold loading. unfold attempt_result. rewrite Hl, Hu, Hg. reflexivity.
Qed.

(** X6. A fetch calls the remote endpoint at most once, after its
    [fetching] dispatch and before its closing dispatch, and only with a
    URL the URL helper returned; it forks nothing. When the language
    selector or the URL helper throws the endpoint is not called. *)
Theorem fetchSpecificAppListSaga_calls_at_most_once (rt : Runtime)
  (state : IRuntimeState) (args : IFetchSpecificAppListSaga) :
  let loading :=
    rootReducer rt state (fetching (key_of args) (metaData_of args)) in
  exists calls terminal,
    events (run rt (fetchSpecificAppListSaga args) state) =
    Dispatched (fetching (key_of args) (metaData_of args))
    :: map Called calls ++ [Dispatched terminal]
    /\ List.length calls <= 1
    /\ (forall url,
          In url calls ->
          exists language,
            appLanguageStateSelector loading = Normal language
            /\ getAppListsUrl (appListId args) (formDataSelector loading)
                 language (dataMapping args) (secure args)
                 (instanceIdSelector state) = Normal url)
    /\ forked (events (run rt (fetchSpecificAppListSaga args) state)) = [].
Proof.
  intros loading. rewrite run_fetchSpecificAppListSaga. fold loading.
  unfold events, attempt_result. simpl snd.
  destruct (appLanguageStateSelector loading) as [language | e] eqn:Hl.
  - destruct (getAppListsUrl _ _ _ _ _ _) as [url | e] eqn:Hu.
    + destruct (remote_get rt url) as [[body |] | e];
        (exists [url]; eexists; split; [reflexivity |];
         split; [simpl; lia |]; split; [| reflexivity];
         intros u [<- | []]; now exists language).
    + exists []. eexists. split; [reflexivity |].
      split; [simpl; lia |]. split; [intros u [] | reflexivity].
  - exists []. eexists. split; [reflexivity |].
    split; [simpl; lia |]. split; [intros u [] | reflexivity].
Qed.

(** X7. The reactor only forks: it dispatches no action and calls no
    endpoint itself, whatever the changed field. It returns, unless no
    stored mapping has the changed field among its keys and the helper
    throws on a key of a matching template; it then ends with that error. *)
Theorem checkIfAppListsShouldRefetchSaga_only_forks (rt : Runtime)
  (state : IRuntimeState) (field : string) :
  let result := run rt (checkIfAppListsShouldRefetchSaga field) state in
  dispatched (events result) = []
  /\ events result = map Forked (forked (events result))
  /\ (outcome result = Returned tt
      \/ (exact_matches field (appListsSelector state) = []
          /\ exists t e,
               In t (template_hits field
                       (appListsWithIndexIndicatorsSelector state))
               /\ concretise_args field t = Thrown e
               /\ outcome result = Aborted e)).
Proof.
  cbv zeta. rewrite run_checkIfAppListsShouldRefetchSaga.
  destruct (exact_matches field (appListsSelector state)) as [| hit hits'].
  - cbv zeta. unfold events, outcome. cbn [fst snd].
    rewrite forked_map_Forked, dispatched_map_Forked.
    split; [reflexivity |]. split; [reflexivity |].
    destruct (template_forks_spec field
                (template_hits field
                   (appListsWithIndexIndicatorsSelector state)))
      as [done [rest [Hsplit [_ [[_ Hret] | [t [rest' [e [-> [Ht Ho]]]]]]]]]].
    + now left.
    + right. split; [reflexivity |]. exists t, e.
      split; [| now split]. rewrite Hsplit. apply in_or_app. right. now left.
  - unfold events, outcome. cbn [fst snd].
    rewrite forked_map_Forked, dispatched_map_Forked.
    split; [reflexivity |]. split; [reflexivity |]. now left.
Qed.


(** X9. When every stored entry is filed under the lookup key of its own
    id and mapping and some stored mapping has the changed field among its
    keys, every refetch the reactor forks has the lookup key of an entry
    already in the store: it refreshes entries and creates none. *)
Theorem exact_refetch_targets_stored_keys (rt : Runtime)
  (state : IRuntimeState) (field : string) :
  (forall key e,
     In (key, e) (appListsSelector state) ->
     key = getAppListLookupKey (meta_id e) (meta_mapping e)) ->
  exact_matches field (appListsSelector state) <> [] ->
  forall args,
    In args (forked (events (run rt (checkIfAppListsShouldRefetchSaga field)
                               state))) ->
    In (key_of args) (Object_keys (appListsSelector state)).
Proof.
  intros Hkeys Hhit args.
  rewrite run_checkIfAppListsShouldRefetchSaga.
  destruct (exact_matches field (appListsSelector state)) as [| e hits] eqn:He;
    [now contradiction Hhit |].
  unfold events. cbn [snd]. rewrite forked_map_Forked.
  intros Hin. apply in_map_iff in Hin.
  destruct Hin as [e' [<- He']]. rewrite <- He in He'.
  apply in_exact_matches in He'.
  destruct He' as [Hstored _]. apply in_map_iff in Hstored.
  destruct Hstored as [[key e''] [Heq Hin]]. simpl in Heq. subst e''.
  unfold key_of, refetch_args. simpl.
  rewrite <- (Hkeys key e' Hin). unfold Object_keys.
  apply in_map_iff. now exists (key, e').
Qed.


Lemma template_forks_all (field : string) (hits : list IAppListsMetaData) :
  (forall t, In t hits -> exists args, concretise_args field t = Normal args) ->
  snd (template_forks field hits) = Returned tt
  /\ map Normal (fst (template_forks field hits)) =
     map (concretise_args field) hits.
Proof.
  intros Hok.
  destruct (template_forks_spec field hits)
    as [done [rest [Hsplit [Hmap [[-> Hret] | [t [rest' [e [-> [Ht _]]]]]]]]]].
  - rewrite app_nil_r in Hsplit. subst done. now split.
  - destruct (Hok t) as [args Hargs].
    + rewrite Hsplit. apply in_or_app. right. now left.
    + rewrite Hargs in Ht. discriminate.
Qed.

(** X11. A field change after a pass, in any later store whose template
    index is still the payload the pass dispatched: when no mapping in that
    store has the changed field among its keys, and the helper throws on no
    key of a matching template, the reactor forks one fetch for every
    matching template the pass recorded, that is one for every component
    that has the template and not one for every distinct template. *)
Theorem field_change_after_pass (rt : Runtime) (state later : IRuntimeState)
  (pages : ILayouts) (groups : IRepeatingGroups) (field : string)
  (payload : list IAppListsMetaData) :
  formLayoutSelector state = Some pages ->
  repeatingGroupsSelector state = Some groups ->
  dispatched (events (run rt fetchAppListsSaga state)) =
  [setAppListsWithIndexIndicators payload] ->
  appListsWithIndexIndicatorsSelector later = payload ->
  exact_matches field (appListsSelector later) = [] ->
  (forall t,
     In t (template_hits field payload) ->
     exists args, concretise_args field t = Normal args) ->
  outcome (run rt (checkIfAppListsShouldRefetchSaga field) later) = Returned tt
  /\ map Normal
       (forked (events (run rt (checkIfAppListsShouldRefetchSaga field) later)))
     = map (concretise_args field)
           (template_hits field (templates_seen pages groups)).
Proof.
  intros Hl Hg Hd Hlater Hnone Hok.
  rewrite (run_fetchAppListsSaga rt state pages groups Hl Hg) in Hd.
  unfold events in Hd. cbn [fst snd] in Hd.
  rewrite dispatched_app, dispatched_map_Forked in Hd. simpl in Hd.
  inversion Hd as [Hp]. rewrite <- Hp in Hlater, Hok. clear Hd Hp.
  rewrite run_checkIfAppListsShouldRefetchSaga, Hnone. cbv zeta.
  rewrite Hlater. unfold events, outcome. cbn [fst snd].
  rewrite forked_map_Forked. now apply template_forks_all.
Qed.

Lemma in_templates_seen (pages : ILayouts) (groups : IRepeatingGroups)
  (k : IAppListsMetaData) :
  In k (templates_seen pages groups) <->
  exists page element,
    In page pages
    /\ In element (snd page)
    /\ keyWithIndexIndicator
         (getAppListLookupKeys (comp_appListId element)
            (comp_mapping element) (comp_secure element) groups) = Some k.
Proof.
  unfold templates_seen. rewrite in_flat_map. split.
  - intros [page [Hp Hk]]. apply in_flat_map in Hk.
    destruct Hk as [element [He Hk]]. unfold element_template in Hk.
    destruct (keyWithIndexIndicator _) as [k' |] eqn:Hkw; [| contradiction].
    destruct Hk as [<- | []]. now exists page, element.
  - intros [page [element [Hp [He Hk]]]]. exists page. split; [exact Hp |].
    apply in_flat_map. exists element. split; [exact He |].
    unfold element_template. rewrite Hk. now left.
Qed.

(** X1. A pass that finds the layouts and the repeating groups in the store
    returns after one dispatch, [setAppListsWithIndexIndicators], which is
    its last effect and comes after all its forks. The payload holds the
    templated keys the resolver returned, and only those, also for
    components without [appListId]. *)
Theorem fetchAppListsSaga_ends_with_one_store_update (rt : Runtime)
  (state : IRuntimeState) (pages : ILayouts) (groups : IRepeatingGroups) :
  formLayoutSelector state = Some pages ->
  repeatingGroupsSelector state = Some groups ->
  exists payload,
    outcome (run rt fetchAppListsSaga state) = Returned tt
    /\ events (run rt fetchAppListsSaga state) =
       map Forked (forked (events (run rt fetchAppListsSaga state)))
       ++ [Dispatched (setAppListsWithIndexIndicators payload)]
    /\ (forall k,
          In k payload <->
          exists page element,
            In page pages
            /\ In element (snd page)
            /\ keyWithIndexIndicator
                 (getAppListLookupKeys (comp_appListId element)
                    (comp_mapping element) (comp_secure element) groups)
               = Some k).
Proof.
  intros Hl Hg. exists (templates_seen pages groups).
  rewrite (run_fetchAppListsSaga rt state pages groups Hl Hg).
  unfold events, outcome. cbn [fst snd]. split; [reflexivity |]. split.
  - rewrite forked_app, forked_map_Forked. simpl forked.
    now rewrite app_nil_r.
  - intros k. apply in_templates_seen.
Qed.

End Sagas.

(** ** The sagas on a concrete form *)

(** C1 on the form of [Demo]: the three rows of [list1] and [list2] are
    fetched once each; the component without a list and the repeated
    components of the second page fork nothing. *)
Lemma fetchAppListsSaga_forks_once_per_lookup_key_demo :
  formLayoutSelector Demo.state = Some Demo.pages
  /\ repeatingGroupsSelector Demo.state = Some Demo.groups
  /\ forked (events (run Demo.runtime
                       (fetchAppListsSaga KeyCodec.getAppListLookupKey
                          KeyCodec.getAppListLookupKeys)
                       Demo.state)) =
     [mkFetchArgs (Some "list1") (Some [("persons.0.name", "name")]) None;
      mkFetchArgs (Some "list1") (Some [("persons.1.name", "name")]) None;
      mkFetchArgs (Some "list1") (Some [("persons.2.name", "name")]) None;
      mkFetchArgs (Some "list2") None (Some true)].
Proof.
  split; [reflexivity |]. split; [reflexivity |].
  rewrite (proj1 (fetchAppListsSaga_forks_once_per_lookup_key
                    KeyCodec.getAppListLookupKey KeyCodec.getAppListLookupKeys
                    Demo.runtime Demo.state Demo.pages Demo.groups
                    eq_refl eq_refl)).
  reflexivity.
Defined.

(** C2 on the form of [Demo]: the stored key of row 1 has the changed field
    in its mapping and is the only refetch. *)
Lemma exact_matches_take_precedence_demo :
  exact_matches "persons.1.name" (appListsSelector Demo.state) <> []
  /\ events (run Demo.runtime
               (checkIfAppListsShouldRefetchSaga KeyCodec.getKeyIndex
                  KeyCodec.getKeyWithoutIndex
                  KeyCodec.getKeyWithoutIndexIndicators
                  KeyCodec.replaceIndexIndicatorsWithIndexes "persons.1.name")
               Demo.state) =
     [Forked (mkFetchArgs (Some "list1")
                (Some [("persons.1.name", "name")]) None)].
Proof.
  assert (H : exact_matches "persons.1.name" (appListsSelector Demo.state)
              <> []) by discriminate.
  split; [exact H |].
  rewrite (proj1 (proj2 (exact_matches_take_precedence
                           KeyCodec.getKeyIndex KeyCodec.getKeyWithoutIndex
                           KeyCodec.getKeyWithoutIndexIndicators
                           KeyCodec.replaceIndexIndicatorsWithIndexes
                           Demo.runtime Demo.state "persons.1.name" H))).
  reflexivity.
Defined.


(** The run of that witness: one fork, with the key of the new row. *)
Example template_refetch_demo :
  events
    (run Demo.runtime
       (checkIfAppListsShouldRefetchSaga KeyCodec.getKeyIndex
          KeyCodec.getKeyWithoutIndex KeyCodec.getKeyWithoutIndexIndicators
          KeyCodec.replaceIndexIndicatorsWithIndexes "persons.3.name")
       Demo.state) =
  [Forked (mkFetchArgs (Some "list1") (Some [("persons.3.name", "name")]) None)].
Proof. reflexivity. Qed.


(** C6 on the form of [Demo]: the endpoint of [list2] answers with an
    error; the fetch is rejected under its key and the saga returns. *)
Lemma fetchSpecificAppListSaga_catches_failure_demo :
  outcome (run Demo.runtime
             (fetchSpecificAppListSaga KeyCodec.getAppListLookupKey
                KeyCodec.getAppListsUrl KeyCodec.appLanguageStateSelector
                Demo.list2_args)
             Demo.state) = Returned tt
  /\ dispatched
       (events (run Demo.runtime
                  (fetchSpecificAppListSaga KeyCodec.getAppListLookupKey
                     KeyCodec.getAppListsUrl KeyCodec.appLanguageStateSelector
                     Demo.list2_args)
                  Demo.state)) =
     [fetching "list2" (mkMeta (Some "list2") None (Some true));
      fetchRejected "list2" (HttpError 503)].
Proof.
  assert (H : attempt_throws KeyCodec.getAppListsUrl
                KeyCodec.appLanguageStateSelector Demo.runtime
                (rootReducer Demo.runtime Demo.state
                   (fetching
                      (key_of KeyCodec.getAppListLookupKey Demo.list2_args)
                      (metaData_of Demo.list2_args)))
                Demo.list2_args (instanceIdSelector Demo.state)
                (HttpError 503)).
  { eapply get_throws; reflexivity. }
  pose proof (fetchSpecificAppListSaga_catches_failure
                KeyCodec.getAppListLookupKey KeyCodec.getAppListsUrl
                KeyCodec.appLanguageStateSelector Demo.runtime Demo.state
                Demo.list2_args (HttpError 503) H) as [Ho [Hd _]].
  split; [exact Ho | exact Hd].
Defined.

(** The whole pass on the form of [Demo]: four forks, then the store update
    with the template of [list1], once for each of the two components that
    have it. *)
Example fetchAppListsSaga_demo :
  events
    (run Demo.runtime
       (fetchAppListsSaga KeyCodec.getAppListLookupKey
          KeyCodec.getAppListLookupKeys)
       Demo.state) =
  [Forked (mkFetchArgs (Some "list1") (Some [("persons.0.name", "name")]) None);
   Forked (mkFetchArgs (Some "list1") (Some [("persons.1.name", "name")]) None);
   Forked (mkFetchArgs (Some "list1") (Some [("persons.2.name", "name")]) None);
   Forked (mkFetchArgs (Some "list2") None (Some true));
   Dispatched
     (setAppListsWithIndexIndicators
        [mkMeta (Some "list1") (Some [("persons.{0}.name", "name")]) None;
         mkMeta (Some "list1") (Some [("persons.{0}.name", "name")]) None])].
Proof. reflexivity. Qed.

(** Before the layouts are in the store the pass stays parked and does
    nothing. *)
Example fetchAppListsSaga_parked :
  run Demo.runtime
      (fetchAppListsSaga KeyCodec.getAppListLookupKey
         KeyCodec.getAppListLookupKeys)
      (mkState None [] (mkAppListState [] []) None) =
  (Parked, mkState None [] (mkAppListState [] []) None, []).
Proof. reflexivity. Qed.

(** A fetch that succeeds: the items of the response are stored under the
    key of the fetch. *)
Example fetchSpecificAppListSaga_fulfilled_demo :
  events
    (run Demo.runtime
       (fetchSpecificAppListSaga KeyCodec.getAppListLookupKey
          KeyCodec.getAppListsUrl KeyCodec.appLanguageStateSelector
          (mkFetchArgs (Some "list1") (Some [("persons.1.name", "name")]) None))
       Demo.state) =
  [Dispatched (fetching "list1:persons.1.name=name" (Demo.row "1"));
   Called "api/lists/list1?language=nb&name=Kari";
   Dispatched
     (fetchFulfilled "list1:persons.1.name=name"
        [[("value", "1"); ("label", "Kari")]])].
Proof. reflexivity. Qed.

(** Two template keys replaced to the same property: the assignment of the
    later key stays. A key with another number of placeholders than the
    field has indices: the helper throws and no mapping is built. An array
    index among the replaced keys is enumerated first. *)
Example newDataMapping_same_property :
  newDataMapping KeyCodec.replaceIndexIndicatorsWithIndexes
    [("persons.{0}.name", "first"); ("persons.{1}.name", "second")] [3%Z] =
  Normal [("persons.3.name", "second")]
  /\ newDataMapping KeyCodec.replaceIndexIndicatorsWithIndexes
       [("persons.{0}.name", "first"); ("persons.3.name", "second")] [3%Z] =
     Thrown KeyCodec.MalformedPathError
  /\ newDataMapping KeyCodec.replaceIndexIndicatorsWithIndexes
       [("x.{0}", "a"); ("{0}", "b")] [3%Z] =
     Normal [("3", "b"); ("x.3", "a")].
Proof. repeat split. Qed.

(** ** The validation enums *)

(** C8. [BackendValidationSeverity] maps [Error] to 1, [Warning] to 2,
    [Informational] to 3 and [Success] to 5, and defines no other value: a
    number names a member exactly when it is one of these four. *)
Theorem BackendValidationSeverity_values :
  severity_value Error = 1%Z
  /\ severity_value Warning = 2%Z
  /\ severity_value Informational = 3%Z
  /\ severity_value Success = 5%Z
  /\ (forall s : BackendValidationSeverity,
        s = Error \/ s = Warning \/ s = Informational \/ s = Success)
  /\ (forall (n : Z) (s : BackendValidationSeverity),
        severity_of_value n = Some s <-> severity_value s = n)
  /\ (forall n : Z,
        severity_of_value n <> None <->
        n = 1%Z \/ n = 2%Z \/ n = 3%Z \/ n = 5%Z).
Proof.
  repeat split; try reflexivity.
  - intros []; tauto.
  - destruct s; unfold severity_of_value;
      (destruct n as [| p | p]; try discriminate;
       repeat (destruct p as [p | p |]; try discriminate));
      reflexivity.
  - intros <-. now destruct s.
  - unfold severity_of_value.
    destruct n as [| p | p]; try (intros H; now contradiction H);
      repeat (destruct p as [p | p |];
              try (intros H; now contradiction H));
      intros _; lia.
  - intros [-> | [-> | [-> | ->]]]; discriminate.
Qed.

(** C7. Each atomic category of [ValidationMask] is a power of two, so it
    has exactly one bit set, and two different atomic categories share no
    bit. *)
Theorem atomic_categories_are_disjoint_single_bits :
  (forall m, In m atomic_categories ->
     exists n : Z,
       (0 <= n)%Z
       /\ mask_value m = (2 ^ n)%Z
       /\ forall i : Z, Z.testbit (mask_value m) i = Z.eqb n i)
  /\ (forall a b,
        In a atomic_categories -> In b atomic_categories -> a <> b ->
        Z.land (mask_value a) (mask_value b) = 0%Z).
Proof.
  split.
  - intros m Hin.
    assert (Hpow : exists n : Z, (0 <= n)%Z /\ mask_value m = (2 ^ n)%Z).
    { simpl in Hin.
      destruct Hin as [<- | [<- | [<- | [<- | [<- | [<- | []]]]]]];
        [exists 0%Z | exists 1%Z | exists 2%Z | exists 3%Z
         | exists 14%Z | exists 15%Z];
        (split; [lia | reflexivity]). }
    destruct Hpow as [n [Hn Hv]]. exists n. repeat split; try assumption.
    intros i. rewrite Hv. now apply Z.pow2_bits_eqb.
  - intros a b Ha Hb Hne. simpl in Ha, Hb.
    destruct Ha as [<- | [<- | [<- | [<- | [<- | [<- | []]]]]]];
      destruct Hb as [<- | [<- | [<- | [<- | [<- | [<- | []]]]]]];
      try reflexivity; now contradiction Hne.
Qed.

(** C3, as the enum has it: [All] is [AllExceptRequired | Required] and
    [AllIncludingBackend] is [All | Backend]; [AllExceptRequired] is the
    mask of the fourteen low bits: it holds [Schema], [Component],
    [Expression] and [CustomBackend] and neither [Required] nor [Backend],
    and its bits 4 to 13, which every combination mask has, belong to no
    atomic category. *)
Theorem combination_masks_as_defined :
  mask_value All =
    Z.lor (mask_value AllExceptRequired) (mask_value Required)
  /\ mask_value AllIncludingBackend =
     Z.lor (mask_value All) (mask_value Backend)
  /\ mask_value AllExceptRequired = Z.ones 14
  /\ (forall m, In m [Schema; Component; Expression; CustomBackend] ->
        Z.land (mask_value AllExceptRequired) (mask_value m) = mask_value m)
  /\ Z.land (mask_value AllExceptRequired) (mask_value Required) = 0%Z
  /\ Z.land (mask_value AllExceptRequired) (mask_value Backend) = 0%Z
  /\ (forall m, In m combination_masks ->
        Z.land (mask_value m) (Z.lnot atomic_bits) =
        Z.shiftl (Z.ones 10) 4).
Proof.
  repeat split; try reflexivity.
  - intros m Hin. simpl in Hin.
    destruct Hin as [<- | [<- | [<- | [<- | []]]]]; reflexivity.
  - intros m Hin. simpl in Hin.
    destruct Hin as [<- | [<- | [<- | []]]]; reflexivity.
Qed.

(** C3 as stated fails: [AllExceptRequired] is not the bitwise OR of the
    four categories it is said to comprise, and its bit 4 is a bit of no
    atomic category. *)
Lemma AllExceptRequired_is_not_an_or_of_atomics :
  mask_value AllExceptRequired <>
    Z.lor (Z.lor (Z.lor (mask_value Schema) (mask_value Component))
                 (mask_value Expression))
          (mask_value CustomBackend)
  /\ mask_value AllExceptRequired = 16383%Z
  /\ Z.lor (Z.lor (Z.lor (mask_value Schema) (mask_value Component))
                  (mask_value Expression))
           (mask_value CustomBackend) = 15%Z
  /\ Z.testbit (mask_value AllExceptRequired) 4 = true
  /\ Z.testbit atomic_bits 4 = false.
Proof. split; [discriminate | repeat split]. Qed.

(** ** The queue slice *)

(** C10. A queue error action sets the [error] of the task it names to the
    error of its payload; the [isDone] flag of that task and the other four
    tasks are unchanged. *)
Theorem queue_error_sets_only_the_named_error (state : IQueueState)
  (name : TaskName) (payload : IQueueError) :
  let state' := queueSlice_reducer state (error_action name payload) in
  error (task_of name state') = payload_error payload
  /\ isDone (task_of name state') = isDone (task_of name state)
  /\ (forall other, other <> name ->
        task_of other state' = task_of other state).
Proof.
  destruct name; simpl; repeat split;
    intros other Hne; destruct other; try reflexivity; now contradiction Hne.
Qed.

(** ** More on the sagas on concrete stores *)

Lemma KeyCodec_resolver_keeps_the_id (id : option string)
  (mapping : option IMapping) (sec : option bool) (groups : IRepeatingGroups)
  (ks : list IAppListsMetaData) (k : IAppListsMetaData) :
  keys (KeyCodec.getAppListLookupKeys id mapping sec groups) = Some ks ->
  In k ks -> meta_id k = id.
Proof.
  unfold KeyCodec.getAppListLookupKeys. destruct mapping as [m |].
  - destruct (existsb KeyCodec.has_indicator (Object_keys m)); simpl;
      intros Hk Hin; inversion Hk; subst.
    + apply in_map_iff in Hin. destruct Hin as [row [<- _]]. reflexivity.
    + destruct Hin as [<- | []]. reflexivity.
  - simpl. intros Hk Hin. inversion Hk; subst.
    destruct Hin as [<- | []]. reflexivity.
Qed.

(** X1 on the form of [Demo]: one store update, with the template of
    [list1] once for each of the two components that have it. *)
Lemma fetchAppListsSaga_ends_with_one_store_update_demo :
  exists payload,
    dispatched
      (events (run Demo.runtime
                 (fetchAppListsSaga KeyCodec.getAppListLookupKey
                    KeyCodec.getAppListLookupKeys)
                 Demo.state)) =
    [setAppListsWithIndexIndicators payload]
    /\ List.length payload = 2.
Proof.
  destruct (fetchAppListsSaga_ends_with_one_store_update
              KeyCodec.getAppListLookupKey KeyCodec.getAppListLookupKeys
              Demo.runtime Demo.state Demo.pages Demo.groups
              eq_refl eq_refl) as [payload [_ [Hev _]]].
  exists payload.
  assert (Hd : dispatched
                 (events (run Demo.runtime
                            (fetchAppListsSaga KeyCodec.getAppListLookupKey
                               KeyCodec.getAppListLookupKeys)
                            Demo.state)) =
               [setAppListsWithIndexIndicators payload]).
  { rewrite Hev at 1. rewrite dispatched_app, dispatched_map_Forked.
    reflexivity. }
  split; [exact Hd |].
  vm_compute in Hd. inversion Hd. reflexivity.
Defined.

(** X2 on the form of [Demo]: the fetch of [list2] belongs to a component
    with an id. *)
Lemma fetchAppListsSaga_forks_only_for_list_components_demo :
  In Demo.list2_args
     (forked (events (run Demo.runtime
                        (fetchAppListsSaga KeyCodec.getAppListLookupKey
                           KeyCodec.getAppListLookupKeys)
                        Demo.state)))
  /\ truthy (appListId Demo.list2_args) = true.
Proof.
  assert (H : In Demo.list2_args
                 (forked (events (run Demo.runtime
                                    (fetchAppListsSaga
                                       KeyCodec.getAppListLookupKey
                                       KeyCodec.getAppListLookupKeys)
                                    Demo.state)))).
  { right. right. right. left. reflexivity. }
  split; [exact H |].
  exact (proj1 (proj1 (fetchAppListsSaga_forks_only_for_list_components
                         KeyCodec.getAppListLookupKey
                         KeyCodec.getAppListLookupKeys
                         Demo.runtime Demo.state Demo.pages Demo.groups
                         eq_refl eq_refl)
                      Demo.list2_args H)).
Defined.

(** X3 on the form of [Demo]: the pass forks the same four tasks on the
    store of [Later], where nothing is on file. *)
Lemma fetchAppListsSaga_ignores_the_store_demo :
  formLayoutSelector Later.state = Some Demo.pages
  /\ repeatingGroupsSelector Later.state = Some Demo.groups
  /\ events (run Demo.runtime
               (fetchAppListsSaga KeyCodec.getAppListLookupKey
                  KeyCodec.getAppListLookupKeys)
               Demo.state) =
     events (run Later.runtime
               (fetchAppListsSaga KeyCodec.getAppListLookupKey
                  KeyCodec.getAppListLookupKeys)
               Later.state).
Proof.
  split; [reflexivity |]. split; [reflexivity |].
  exact (fetchAppListsSaga_ignores_the_store
           KeyCodec.getAppListLookupKey KeyCodec.getAppListLookupKeys
           Demo.runtime Later.runtime Demo.state Later.state
           Demo.pages Demo.groups eq_refl eq_refl eq_refl eq_refl).
Defined.

(** X4 on the form of [Demo]: the resolver of [KeyCodec] keeps the id, and
    the four forked tasks have four different keys. *)
Lemma fetchAppListsSaga_forks_distinct_store_keys_demo :
  NoDup (map (key_of KeyCodec.getAppListLookupKey)
             (forked (events (run Demo.runtime
                                (fetchAppListsSaga KeyCodec.getAppListLookupKey
                                   KeyCodec.getAppListLookupKeys)
                                Demo.state)))).
Proof.
  apply (fetchAppListsSaga_forks_distinct_store_keys
           KeyCodec.getAppListLookupKey KeyCodec.getAppListLookupKeys
           Demo.runtime Demo.state Demo.pages Demo.groups eq_refl eq_refl).
  intros page element ks k _ _ Hk Hin.
  exact (KeyCodec_resolver_keeps_the_id _ _ _ _ ks k Hk Hin).
Defined.

(** X5 on the form of [Demo]: the fetch of row 1 of [list1] is fulfilled
    with the items of the response. *)
Lemma fetchSpecificAppListSaga_fulfils_demo :
  events
    (run Demo.runtime
       (fetchSpecificAppListSaga KeyCodec.getAppListLookupKey
          KeyCodec.getAppListsUrl KeyCodec.appLanguageStateSelector
          (mkFetchArgs (Some "list1") (Some [("persons.1.name", "name")]) None))
       Demo.state) =
  [Dispatched (fetching "list1:persons.1.name=name" (Demo.row "1"));
   Called "api/lists/list1?language=nb&name=Kari";
   Dispatched
     (fetchFulfilled "list1:persons.1.name=name"
        [[("value", "1"); ("label", "Kari")]])].
Proof.
  rewrite (fetchSpecificAppListSaga_fulfils
             KeyCodec.getAppListLookupKey KeyCodec.getAppListsUrl
             KeyCodec.appLanguageStateSelector Demo.runtime Demo.state
             (mkFetchArgs (Some "list1") (Some [("persons.1.name", "name")]) None)
             "nb" "api/lists/list1?language=nb&name=Kari"
             {| listItems := [[("value", "1"); ("label", "Kari")]] |}
             eq_refl eq_refl eq_refl).
  reflexivity.
Defined.


(** X9 on the form of [Demo]: the entries are filed under their lookup
    keys, and the refetch for the field of row 1 has the key of the entry
    of that row. *)
Lemma exact_refetch_targets_stored_keys_demo :
  In (key_of KeyCodec.getAppListLookupKey
        (mkFetchArgs (Some "list1") (Some [("persons.1.name", "name")]) None))
     (Object_keys (appListsSelector Demo.state)).
Proof.
  apply (exact_refetch_targets_stored_keys
           KeyCodec.getAppListLookupKey KeyCodec.getKeyIndex
           KeyCodec.getKeyWithoutIndex KeyCodec.getKeyWithoutIndexIndicators
           KeyCodec.replaceIndexIndicatorsWithIndexes
           Demo.runtime Demo.state "persons.1.name").
  - intros key e Hin. simpl in Hin.
    destruct Hin as [H | [H | [H | [H | []]]]]; inversion H; reflexivity.
  - discriminate.
  - left. reflexivity.
Defined.


(** X11 on the form of [Demo], from a store with nothing on file: the pass
    files the three rows and [list2]; in the store it leaves, a change of a
    field of a new row forks the same fetch twice, once for each of the two
    components bound to [list1]. *)
Lemma field_change_after_pass_demo :
  map Normal
    (forked
       (events
          (run Demo.runtime
             (checkIfAppListsShouldRefetchSaga KeyCodec.getKeyIndex
                KeyCodec.getKeyWithoutIndex
                KeyCodec.getKeyWithoutIndexIndicators
                KeyCodec.replaceIndexIndicatorsWithIndexes "persons.3.name")
             (snd (fst (run Demo.runtime
                          (fetchAppListsSaga KeyCodec.getAppListLookupKey
                             KeyCodec.getAppListLookupKeys)
                          Later.state)))))) =
  [Normal (mkFetchArgs (Some "list1") (Some [("persons.3.name", "name")]) None);
   Normal (mkFetchArgs (Some "list1") (Some [("persons.3.name", "name")]) None)].
Proof.
  rewrite (proj2 (field_change_after_pass
                    KeyCodec.getAppListLookupKey KeyCodec.getAppListLookupKeys
                    KeyCodec.getKeyIndex KeyCodec.getKeyWithoutIndex
                    KeyCodec.getKeyWithoutIndexIndicators
                    KeyCodec.replaceIndexIndicatorsWithIndexes
                    Demo.runtime Later.state
                    (snd (fst (run Demo.runtime
                                 (fetchAppListsSaga
                                    KeyCodec.getAppListLookupKey
                                    KeyCodec.getAppListLookupKeys)
                                 Later.state)))
                    Demo.pages Demo.groups "persons.3.name"
                    [mkMeta (Some "list1")
                       (Some [("persons.{0}.name", "name")]) None;
                     mkMeta (Some "list1")
                       (Some [("persons.{0}.name", "name")]) None]
                    eq_refl eq_refl eq_refl eq_refl eq_refl
                    (fun t Hin =>
                       match Hin with
                       | or_introl Heq =>
                           ex_intro _ _ (f_equal
                             (concretise_args KeyCodec.getKeyIndex
                                KeyCodec.replaceIndexIndicatorsWithIndexes
                                "persons.3.name") (eq_sym Heq))
                       | or_intror (or_introl Heq) =>
                           ex_intro _ _ (f_equal
                             (concretise_args KeyCodec.getKeyIndex
                                KeyCodec.replaceIndexIndicatorsWithIndexes
                                "persons.3.name") (eq_sym Heq))
                       | or_intror (or_intror F) => match F with end
                       end))).
  reflexivity.
Defined.

(** After the same pass a change of the field of row 1 finds the entry of
    that row in the store and refetches it once. *)
Example field_of_a_stored_row_after_pass :
  events
    (run Demo.runtime
       (checkIfAppListsShouldRefetchSaga KeyCodec.getKeyIndex
          KeyCodec.getKeyWithoutIndex KeyCodec.getKeyWithoutIndexIndicators
          KeyCodec.replaceIndexIndicatorsWithIndexes "persons.1.name")
       (snd (fst (run Demo.runtime
                    (fetchAppListsSaga KeyCodec.getAppListLookupKey
                       KeyCodec.getAppListLookupKeys)
                    Later.state)))) =
  [Forked (mkFetchArgs (Some "list1") (Some [("persons.1.name", "name")]) None)].
Proof. reflexivity. Qed.

(** ** More on the validation types *)

(** X12. No two members of [ValidationMask] have the same value. The
    combination masks are nested, [AllExceptRequired] within [All] within
    [AllIncludingBackend], and every member lies within
    [AllIncludingBackend]; the members within [All] are all but [Backend]
    and [AllIncludingBackend], and those within [AllExceptRequired] are
    [Schema], [Component], [Expression], [CustomBackend] and itself. *)
Theorem ValidationMask_members_are_distinct_and_nested :
  (forall a b, mask_value a = mask_value b -> a = b)
  /\ mask_within AllExceptRequired All
  /\ mask_within All AllIncludingBackend
  /\ (forall m, mask_within m AllIncludingBackend)
  /\ (forall m, mask_within m All <-> m <> Backend /\ m <> AllIncludingBackend)
  /\ (forall m,
        mask_within m AllExceptRequired <->
        In m [Schema; Component; Expression; CustomBackend; AllExceptRequired]).
Proof.
  unfold mask_within. repeat split; try reflexivity.
  - intros a b. destruct a, b; intros H; try reflexivity; discriminate H.
  - intros m. now destruct m.
  - destruct m; try discriminate; intros H; vm_compute in H; discriminate.
  - destruct m; try discriminate; intros H; vm_compute in H; discriminate.
  - intros [Hb Ha]. destruct m; try reflexivity;
      [now contradiction Hb | now contradiction Ha].
  - destruct m; intros H; vm_compute in H; try discriminate H; simpl; tauto.
  - intros H. simpl in H.
    destruct H as [<- | [<- | [<- | [<- | [<- | []]]]]]; reflexivity.
Qed.

(** X13. The collection type names ['All_Including_Backend'], which is no
    member of [ValidationMask], so [ValidationMaskCollectionKeys] holds
    [AllExceptRequired] and [All] only, [ValidationCategoryKey] keeps
    [AllIncludingBackend] beside the six atomic categories, and the values
    of type [ValidationCategory] are 0, the six single bits and 65535. *)
Theorem ValidationCategory_admits_AllIncludingBackend :
  ValidationMaskCollectionKeys = ["AllExceptRequired"; "All"]
  /\ ValidationCategoryKey =
     ["Schema"; "Component"; "Expression"; "CustomBackend"; "Required";
      "Backend"; "AllIncludingBackend"]
  /\ ValidationCategory (mask_value AllIncludingBackend) = true
  /\ ValidationCategory (mask_value All) = false
  /\ ValidationCategory (mask_value AllExceptRequired) = false
  /\ (forall v,
        ValidationCategory v = true <->
        In v [0; 1; 2; 4; 8; 16384; 32768; 65535]%Z).
Proof.
  repeat split; try reflexivity.
  - intros H.
    assert (Heq : ValidationCategory v =
                  (Z.eqb v 0
                   || (Z.eqb 1 v || (Z.eqb 2 v || (Z.eqb 4 v || (Z.eqb 8 v
                   || (Z.eqb 16384 v || (Z.eqb 32768 v
                   || (Z.eqb 65535 v || false))))))))) by reflexivity.
    rewrite Heq in H. simpl.
    repeat (apply orb_true_iff in H; destruct H as [H | H];
            [apply Z.eqb_eq in H; subst; tauto |]).
    discriminate H.
  - intros H. simpl in H.
    destruct H as [<- | [<- | [<- | [<- | [<- | [<- | [<- | [<- | []]]]]]]]];
      reflexivity.
Qed.

(** ** More on the queue slice *)

Lemma read_written (state : IQueueState) (action : QueueAction) :
  read (written action) (queueSlice_reducer state action) = assigned action.
Proof. now destruct action. Qed.

Lemma read_unwritten (state : IQueueState) (action : QueueAction)
  (target : TaskName * TaskField) :
  target <> written action ->
  read target (queueSlice_reducer state action) = read target state.
Proof.
  destruct target as [name field].
  destruct name, field, action; intros Hne; try reflexivity;
    now contradiction Hne.
Qed.

Lemma read_untouched (actions : list QueueAction)
  (target : TaskName * TaskField) :
  forall state,
    (forall a, In a actions -> written a <> target) ->
    read target (queue_after state actions) = read target state.
Proof.
  unfold queue_after.
  induction actions as [| a actions IH]; intros state Hnot; simpl.
  - reflexivity.
  - rewrite IH.
    + apply read_unwritten. intros Heq. apply (Hnot a); [now left | easy].
    + intros b Hb. apply Hnot. now right.
Qed.

(** X14. Every reducer of the slice assigns one property of one task: after
    the action that property holds the value the action carries (the error
    of the payload, [false] for a start, [true] for a fulfilment), and every
    other property of every task is as before. *)
Theorem queue_action_assigns_one_property (state : IQueueState)
  (action : QueueAction) :
  read (written action) (queueSlice_reducer state action) = assigned action
  /\ (forall target,
        target <> written action ->
        read target (queueSlice_reducer state action) = read target state).
Proof.
  split; [apply read_written |]. intros target. apply read_unwritten.
Qed.

(** X15. In a sequence of actions the last assignment of a property stays:
    when no action after [action] assigns the same property, the property
    holds the value of [action] at the end. *)
Theorem queue_last_assignment_stays (state : IQueueState)
  (before after : list QueueAction) (action : QueueAction) :
  (forall later, In later after -> written later <> written action) ->
  read (written action) (queue_after state (before ++ action :: after)) =
  assigned action.
Proof.
  intros Hlater. unfold queue_after. rewrite fold_left_app. simpl.
  fold (queue_after
          (queueSlice_reducer (fold_left queueSlice_reducer before state) action)
          after).
  rewrite (read_untouched after (written action) _ Hlater).
  apply read_written.
Qed.

(** X16. The actions are assignments of constants: dispatching one twice
    is dispatching it once, a later action that assigns the same property
    wipes out the earlier one, and two actions that assign different
    properties can be swapped. *)
Theorem queue_actions_compose_as_assignments (state : IQueueState)
  (a b : QueueAction) :
  queueSlice_reducer (queueSlice_reducer state a) a = queueSlice_reducer state a
  /\ (written a = written b ->
      queueSlice_reducer (queueSlice_reducer state a) b =
      queueSlice_reducer state b)
  /\ (written a <> written b ->
      queueSlice_reducer (queueSlice_reducer state a) b =
      queueSlice_reducer (queueSlice_reducer state b) a).
Proof.
  destruct state as [[d1 e1] [d2 e2] [d3 e3] [d4 e4] [d5 e5]].
  split; [now destruct a |]. split.
  - destruct a, b; intros H; try reflexivity; discriminate H.
  - destruct a, b; intros H; try reflexivity; now contradiction H.
Qed.

(** X17. No action of the slice assigns [isDone] of the user task: it keeps
    its value through every sequence of actions, and from the initial state
    it stays [null]. *)
Theorem userTask_isDone_is_never_assigned (state : IQueueState)
  (actions : list QueueAction) :
  isDone (userTask (queue_after state actions)) = isDone (userTask state)
  /\ isDone (userTask (queue_after initialState actions)) = None.
Proof.
  assert (H : forall s,
             read (UserTask, IsDoneField) (queue_after s actions) =
             read (UserTask, IsDoneField) s).
  { intros s. apply read_untouched. intros a _. now destruct a. }
  split.
  - specialize (H state). unfold read in H. simpl in H. now inversion H.
  - specialize (H initialState). unfold read in H. simpl in H.
    now inversion H.
Qed.

(** X18. A start action that has a saga in the slice ends with its task
    done: the saga puts the actions of the other slices and, last, the
    fulfilment of the same task, the only queue action it puts and one
    without saga of its own; after the dispatch [isDone] of the task is
    [true] and every other property of the queue is as before. *)
Theorem start_saga_marks_the_task_done (state : IQueueState)
  (action : QueueAction) (puts : list AppAction) :
  queue_saga action = Some puts ->
  puts <> [] ->
  exists fulfilled,
    queue_puts puts = [fulfilled]
    /\ last puts (QueueActions action) = QueueActions fulfilled
    /\ written fulfilled = written action
    /\ assigned fulfilled = DoneValue (Some true)
    /\ queue_saga fulfilled = Some []
    /\ exists state',
         dispatch_queue state action = Some state'
         /\ read (written action) state' = DoneValue (Some true)
         /\ (forall target,
               target <> written action ->
               read target state' = read target state).
Proof.
  intros Hsaga Hne. unfold dispatch_queue. rewrite Hsaga.
  destruct action; simpl in Hsaga; inversion Hsaga; subst puts;
    try (now contradiction Hne);
    (eexists; repeat (split; [reflexivity |]);
     eexists; split; [reflexivity |]; split; [reflexivity |];
     intros [name field] Ht; destruct name, field; try reflexivity;
     now contradiction Ht).
Qed.

(** X15 on a run of the data task: an error after the start. *)
Lemma queue_last_assignment_stays_demo :
  read (DataTask, ErrorField)
       (queue_after initialState
          [startInitialDataTaskQueue;
           dataTaskQueueError (mkQueueError (Some (HttpError 500)));
           startInitialDataTaskQueueFulfilled;
           appTaskQueueError (mkQueueError None)]) =
  ErrorValue (Some (HttpError 500)).
Proof.
  apply (queue_last_assignment_stays initialState
           [startInitialDataTaskQueue]
           [startInitialDataTaskQueueFulfilled;
            appTaskQueueError (mkQueueError None)]
           (dataTaskQueueError (mkQueueError (Some (HttpError 500))))).
  intros later [<- | [<- | []]]; discriminate.
Defined.

(** X18 on the data task. *)
Lemma start_saga_marks_the_task_done_demo :
  exists fulfilled,
    queue_puts
      [FormDataActions_fetchInitial; DataModelActions_fetchJsonSchema;
       FormLayoutActions_fetch; FormLayoutActions_fetchSettings;
       PdfActions_initial; AttachmentActions_mapAttachments;
       QueueActions startInitialDataTaskQueueFulfilled] = [fulfilled]
    /\ last
         [FormDataActions_fetchInitial; DataModelActions_fetchJsonSchema;
          FormLayoutActions_fetch; FormLayoutActions_fetchSettings;
          PdfActions_initial; AttachmentActions_mapAttachments;
          QueueActions startInitialDataTaskQueueFulfilled]
         (QueueActions startInitialDataTaskQueue) = QueueActions fulfilled
    /\ written fulfilled = written startInitialDataTaskQueue
    /\ assigned fulfilled = DoneValue (Some true)
    /\ queue_saga fulfilled = Some []
    /\ exists state',
         dispatch_queue initialState startInitialDataTaskQueue = Some state'
         /\ read (written startInitialDataTaskQueue) state' =
            DoneValue (Some true)
         /\ (forall target,
               target <> written startInitialDataTaskQueue ->
               read target state' = read target initialState).
Proof.
  apply (start_saga_marks_the_task_done initialState
           startInitialDataTaskQueue _ eq_refl).
  discriminate.
Defined.
